(** * Interactive Bezier curve simulation: a shallow embedding of [beizure.js]

    The component keeps four spring-driven control points, maps mouse or
    device-orientation input to the targets of the two inner points, advances
    the springs once per animation frame and draws the cubic Bezier curve
    through the four current positions.

    Every quantity of the program is a JavaScript number.  The embedding is
    written once, over an interface [Number] of the operations the source
    applies to numbers, and is read at two instances:

    - [float], IEEE 754 binary64 with round-to-nearest-even, which is what the
      script computes with; definitions evaluate there ([vm_compute]);
    - [R], exact real arithmetic, in which the algebraic and analytic
      properties (derivatives, convergence, identities between targets) are
      stated; rounding is outside that reading.

    Properties that only depend on the shape of the computation are proved for
    every instance.  Where a property of the exact reading is also exact in
    binary64 (the end points of the curve) it is proved there too, from the
    specification of the format; where it is not (the sum of the two assigned
    targets, the approach of a spring to its target) the property is stated
    for the exact reading and an instance is evaluated in binary64. *)

From Stdlib Require Import String.
From Stdlib Require Import Floats.
From Stdlib Require Uint63.
From Stdlib Require Import ZArith List Bool Reals Lra Lia.
Import ListNotations.

Set Implicit Arguments.
Set Warnings "-inexact-float,-notation-for-abbreviation".

(** ** Numbers *)

(** The operations of the source on numbers.  [lit] reads an integer literal,
    [neqb] is [===] between numbers, [ngeb] is [>=], [nmin] is [Math.min],
    [nsqrt] is [Math.sqrt] and [truthy] is the conversion to a boolean that
    [e.beta || 0] performs. *)
Class Number (A : Type) : Type := {
  lit : Z -> A;
  nadd : A -> A -> A;
  nsub : A -> A -> A;
  nmul : A -> A -> A;
  ndiv : A -> A -> A;
  nneg : A -> A;
  nsqrt : A -> A;
  nmin : A -> A -> A;
  neqb : A -> A -> bool;
  ngeb : A -> A -> bool;
  truthy : A -> bool
}.

Declare Scope num_scope.
Delimit Scope num_scope with num.
Notation "a + b" := (nadd a b) : num_scope.
Notation "a - b" := (nsub a b) : num_scope.
Notation "a * b" := (nmul a b) : num_scope.
Notation "a / b" := (ndiv a b) : num_scope.
Notation "- a" := (nneg a) : num_scope.
Notation "a === b" := (neqb a b) (at level 70, no associativity) : num_scope.
Notation "a >=? b" := (ngeb a b) (at level 70, no associativity) : num_scope.

(** A decimal literal with finitely many digits, [n / d] for a power of ten
    [d]: [0.15] is [dec 15 100].  In binary64 the correctly rounded quotient of
    two exactly represented integers is the double nearest to the decimal, which
    is how the literal is read. *)
Definition dec {A} `{Number A} (n d : Z) : A := (lit n / lit d)%num.

(** *** Exact reals *)

Definition Req_bool (a b : R) : bool := if Req_dec_T a b then true else false.
Definition Rge_bool (a b : R) : bool := if Rle_dec b a then true else false.

#[export] Instance Number_R : Number R := {|
  lit := IZR;
  nadd := Rplus;
  nsub := Rminus;
  nmul := Rmult;
  ndiv := Rdiv;
  nneg := Ropp;
  nsqrt := sqrt;
  nmin := Rmin;
  neqb := Req_bool;
  ngeb := Rge_bool;
  truthy := fun a => negb (Req_bool a 0)
|}.

(** *** binary64 *)

(** An integer literal, through the 63-bit integers: exact below [2 ^ 53] in
    magnitude, and the literals of the script are below [2 ^ 11]. *)
Definition float_of_Z (z : Z) : float :=
  match z with
  | Z0 => PrimFloat.zero
  | Zpos _ => PrimFloat.of_uint63 (Uint63.of_Z z)
  | Zneg p => PrimFloat.opp (PrimFloat.of_uint63 (Uint63.of_Z (Zpos p)))
  end.

(** [Math.min]: NaN if either argument is NaN, and [-0] below [+0]. *)
Definition float_min (a b : float) : float :=
  if PrimFloat.is_nan a || PrimFloat.is_nan b then PrimFloat.nan
  else if PrimFloat.ltb a b then a
  else if PrimFloat.ltb b a then b
  else if PrimFloat.get_sign a then a else b.

#[export] Instance Number_float : Number float := {|
  lit := float_of_Z;
  nadd := PrimFloat.add;
  nsub := PrimFloat.sub;
  nmul := PrimFloat.mul;
  ndiv := PrimFloat.div;
  nneg := PrimFloat.opp;
  nsqrt := PrimFloat.sqrt;
  nmin := float_min;
  neqb := PrimFloat.eqb;
  ngeb := fun a b => PrimFloat.leb b a;
  truthy := fun a => negb (PrimFloat.is_zero a || PrimFloat.is_nan a)
|}.

(** ** Math module *)

Module Vector2.

Record t (A : Type) : Type := new { x : A; y : A }.
Arguments new {A} _ _.
Arguments x {A} _.
Arguments y {A} _.

Section Ops.
Context {A : Type} `{Number A}.
Local Open Scope num_scope.

Definition add (this v : t A) : t A := new (x this + x v) (y this + y v).

Definition subtract (this v : t A) : t A := new (x this - x v) (y this - y v).

Definition multiply (this : t A) (scalar : A) : t A :=
  new (x this * scalar) (y this * scalar).

Definition length (this : t A) : A := nsqrt (x this * x this + y this * y this).

Definition normalize (this : t A) : t A :=
  let len := length this in
  if len === lit 0 then new (lit 0) (lit 0)
  else new (x this / len) (y this / len).

End Ops.
End Vector2.

Notation Vector2 := Vector2.t.

Section Bezier.
Context {A : Type} `{Number A}.
Local Open Scope num_scope.

(** Cubic Bezier curve computation. *)
Definition bezierPoint (t : A) (p0 p1 p2 p3 : Vector2 A) : Vector2 A :=
  let t1 := lit 1 - t in
  let t1_2 := t1 * t1 in
  let t1_3 := t1_2 * t1 in
  let t_2 := t * t in
  let t_3 := t_2 * t in
  let x := t1_3 * Vector2.x p0 + lit 3 * t1_2 * t * Vector2.x p1
           + lit 3 * t1 * t_2 * Vector2.x p2 + t_3 * Vector2.x p3 in
  let y := t1_3 * Vector2.y p0 + lit 3 * t1_2 * t * Vector2.y p1
           + lit 3 * t1 * t_2 * Vector2.y p2 + t_3 * Vector2.y p3 in
  Vector2.new x y.

(** Tangent vector computation (derivative of the curve). *)
Definition bezierTangent (t : A) (p0 p1 p2 p3 : Vector2 A) : Vector2 A :=
  let t1 := lit 1 - t in
  let t1_2 := t1 * t1 in
  let t_2 := t * t in
  let dx := lit 3 * t1_2 * (Vector2.x p1 - Vector2.x p0)
            + lit 6 * t1 * t * (Vector2.x p2 - Vector2.x p1)
            + lit 3 * t_2 * (Vector2.x p3 - Vector2.x p2) in
  let dy := lit 3 * t1_2 * (Vector2.y p1 - Vector2.y p0)
            + lit 6 * t1 * t * (Vector2.y p2 - Vector2.y p1)
            + lit 3 * t_2 * (Vector2.y p3 - Vector2.y p2) in
  Vector2.new dx dy.

End Bezier.

(** ** Physics module *)

Module SpringPoint.

Record t (A : Type) : Type := mk {
  position : Vector2 A;
  velocity : Vector2 A;
  target : Vector2 A;
  fixed : bool;
  springConstant : A;
  damping : A
}.
Arguments mk {A} _ _ _ _ _ _.
Arguments position {A} _.
Arguments velocity {A} _.
Arguments target {A} _.
Arguments fixed {A} _.
Arguments springConstant {A} _.
Arguments damping {A} _.

Section Ops.
Context {A : Type} `{Number A}.
Local Open Scope num_scope.

(** [constructor(x, y, fixed)]: at rest on its own target, with the two spring
    parameters. *)
Definition new (x y : A) (fixed : bool) : t A :=
  {| position := Vector2.new x y;
     velocity := Vector2.new (lit 0) (lit 0);
     target := Vector2.new x y;
     fixed := fixed;
     springConstant := dec 15 100;
     damping := dec 85 100 |}.

(** [update(deltaTime)].  The assignment to [this.velocity] comes first, so
    the position moves by the velocity just computed. *)
Definition update (deltaTime : A) (this : t A) : t A :=
  if fixed this then this
  else
    let displacement := Vector2.subtract (position this) (target this) in
    let springForce := Vector2.multiply displacement (- springConstant this) in
    let dampingForce := Vector2.multiply (velocity this) (- damping this) in
    let acceleration := Vector2.add springForce dampingForce in
    let velocity' :=
      Vector2.add (velocity this) (Vector2.multiply acceleration deltaTime) in
    let position' :=
      Vector2.add (position this) (Vector2.multiply velocity' deltaTime) in
    {| position := position';
       velocity := velocity';
       target := target this;
       fixed := fixed this;
       springConstant := springConstant this;
       damping := damping this |}.

(** [update()] with the argument left out takes the default [deltaTime = 1]. *)
Definition update_default (this : t A) : t A := update (lit 1) this.

Definition setTarget (x y : A) (this : t A) : t A :=
  {| position := position this;
     velocity := velocity this;
     target := Vector2.new x y;
     fixed := fixed this;
     springConstant := springConstant this;
     damping := damping this |}.

(** The two methods a caller can invoke on a point after its construction. *)
Inductive call : Type :=
| Update (deltaTime : A)
| SetTarget (x y : A).

Definition apply (this : t A) (c : call) : t A :=
  match c with
  | Update deltaTime => update deltaTime this
  | SetTarget x y => setTarget x y this
  end.

Definition run (calls : list call) (this : t A) : t A :=
  fold_left apply calls this.

End Ops.

Arguments call A : clear implicits.

End SpringPoint.

Notation SpringPoint := SpringPoint.t.

(** ** The component's effect *)

Inductive Mode : Type := mouse | gyro.

Definition Mode_eqb (a b : Mode) : bool :=
  match a, b with
  | mouse, mouse | gyro, gyro => true
  | _, _ => false
  end.

(** What the browser offers: whether [window.DeviceOrientationEvent] exists and
    whether it has a [requestPermission] function.  Only where the first holds
    and the second does not does the effect register [handleOrientation]. *)
Record Platform : Type := {
  hasDeviceOrientation : bool;
  hasRequestPermission : bool
}.

Record GyroData (A : Type) : Type := { beta : A; gamma : A; alpha : A }.
Arguments Build_GyroData {A} _ _ _.
Arguments beta {A} _.
Arguments gamma {A} _.
Arguments alpha {A} _.

(** A [deviceorientation] event; each angle is a number or [null]. *)
Record OrientationEvent (A : Type) : Type := {
  e_beta : option A;
  e_gamma : option A;
  e_alpha : option A
}.
Arguments Build_OrientationEvent {A} _ _ _.
Arguments e_beta {A} _.
Arguments e_gamma {A} _.
Arguments e_alpha {A} _.

(** The variables one run of the effect closes over, with the canvas size and
    the two pieces of React state the physics reads or writes ([mode], [fps]).
    [orientationListener] records whether [handleOrientation] is registered.
    The flags that only choose what is drawn are left out: drawing reads the
    positions and changes nothing. *)
Record Sim (A : Type) : Type := {
  mode : Mode;
  fps : A;
  width : A;
  height : A;
  points : list (SpringPoint A);
  mousePos : Vector2 A;
  gyroData : GyroData A;
  gyroActive : bool;
  orientationListener : bool;
  lastTime : A;
  frameCount : A;
  fpsTime : A
}.
Arguments Build_Sim {A} _ _ _ _ _ _ _ _ _ _ _ _.
Arguments mode {A} _.
Arguments fps {A} _.
Arguments width {A} _.
Arguments height {A} _.
Arguments points {A} _.
Arguments mousePos {A} _.
Arguments gyroData {A} _.
Arguments gyroActive {A} _.
Arguments orientationListener {A} _.
Arguments lastTime {A} _.
Arguments frameCount {A} _.
Arguments fpsTime {A} _.

(** [l[i].m(...)] for a method [m] that updates its receiver.  The script
    only indexes [points], an array literal of four elements, at 1 and 2; an
    index past the end (a [TypeError] in the script) leaves the list as it is. *)
Fixpoint call_at {T : Type} (i : nat) (m : T -> T) (l : list T) : list T :=
  match l, i with
  | [], _ => []
  | a :: l', O => m a :: l'
  | a :: l', S i' => a :: call_at i' m l'
  end.

Section Effect.
Context {A : Type} `{Number A}.
Local Open Scope num_scope.

(** [a || 0] for an angle of an orientation event. *)
Definition or_zero (a : option A) : A :=
  match a with
  | Some v => if truthy v then v else lit 0
  | None => lit 0
  end.

Definition resize (offsetWidth offsetHeight : A) (s : Sim A) : Sim A :=
  {| mode := mode s; fps := fps s;
     width := offsetWidth; height := offsetHeight;
     points := points s; mousePos := mousePos s; gyroData := gyroData s;
     gyroActive := gyroActive s; orientationListener := orientationListener s;
     lastTime := lastTime s; frameCount := frameCount s; fpsTime := fpsTime s |}.

(** [rectLeft], [rectTop]: the canvas's bounding rectangle at the event. *)
Definition handleMouseMove (clientX clientY rectLeft rectTop : A) (s : Sim A)
  : Sim A :=
  {| mode := mode s; fps := fps s; width := width s; height := height s;
     points := points s;
     mousePos := Vector2.new (clientX - rectLeft) (clientY - rectTop);
     gyroData := gyroData s;
     gyroActive := gyroActive s; orientationListener := orientationListener s;
     lastTime := lastTime s; frameCount := frameCount s; fpsTime := fpsTime s |}.

Definition handleOrientation (e : OrientationEvent A) (s : Sim A) : Sim A :=
  {| mode := mode s; fps := fps s; width := width s; height := height s;
     points := points s; mousePos := mousePos s;
     gyroData := Build_GyroData (or_zero (e_beta e)) (or_zero (e_gamma e))
                                (or_zero (e_alpha e));
     gyroActive := true; orientationListener := orientationListener s;
     lastTime := lastTime s; frameCount := frameCount s; fpsTime := fpsTime s |}.

(** The step the loop hands to the springs: elapsed time in nominal frames,
    capped at two. *)
Definition deltaTime_of (currentTime lastTime : A) : A :=
  nmin ((currentTime - lastTime) / dec 1667 100) (lit 2).

(** The branch of [updatePhysics] on the input mode. *)
Definition applyInput (s : Sim A) : list (SpringPoint A) :=
  match mode s with
  | mouse =>
      let centerX := width s / lit 2 in
      let centerY := height s / lit 2 in
      let offsetX := (Vector2.x (mousePos s) - centerX) * dec 3 10 in
      let offsetY := (Vector2.y (mousePos s) - centerY) * dec 3 10 in
      call_at 2 (SpringPoint.setTarget (width s * dec 6 10 - offsetX)
                                       (height s * dec 7 10 - offsetY))
        (call_at 1 (SpringPoint.setTarget (width s * dec 4 10 + offsetX)
                                          (height s * dec 3 10 + offsetY))
           (points s))
  | gyro =>
      if gyroActive s then
        let offsetX := (gamma (gyroData s) / lit 90) * lit 150 in
        let offsetY := ((beta (gyroData s) - lit 90) / lit 90) * lit 150 in
        call_at 2 (SpringPoint.setTarget (width s * dec 6 10 - offsetX)
                                         (height s * dec 7 10 - offsetY))
          (call_at 1 (SpringPoint.setTarget (width s * dec 4 10 + offsetX)
                                            (height s * dec 3 10 + offsetY))
             (points s))
      else points s
  end.

(** [updatePhysics()], with the reading of [performance.now()] as argument. *)
Definition updatePhysics (currentTime : A) (s : Sim A) : Sim A :=
  let deltaTime := deltaTime_of currentTime (lastTime s) in
  let frameCount' := frameCount s + lit 1 in
  let report := (currentTime - fpsTime s) >=? lit 1000 in
  {| mode := mode s;
     fps := if report then frameCount' else fps s;
     width := width s; height := height s;
     points := map (SpringPoint.update deltaTime) (applyInput s);
     mousePos := mousePos s; gyroData := gyroData s;
     gyroActive := gyroActive s; orientationListener := orientationListener s;
     lastTime := currentTime;
     frameCount := if report then lit 0 else frameCount';
     fpsTime := if report then currentTime else fpsTime s |}.

(** The readings of the environment one run of the effect makes: the layout
    size of the canvas, and [performance.now()] three times (for [lastTime],
    for [fpsTime], and in the first call of [animate]). *)
Record Readings : Type := {
  offsetWidth : A;
  offsetHeight : A;
  now_lastTime : A;
  now_fpsTime : A;
  now_first : A
}.

(** The body of the effect up to [animate()]: the canvas takes its layout
    size, the rig is built from it, the input variables are initialised and
    the orientation listener is registered where no permission is needed. *)
Definition setup (pf : Platform) (m : Mode) (fps0 : A) (r : Readings) : Sim A :=
  let cw := offsetWidth r in
  let ch := offsetHeight r in
  {| mode := m;
     fps := fps0;
     width := cw; height := ch;
     points := [ SpringPoint.new (cw * dec 2 10) (ch * dec 5 10) true;
                 SpringPoint.new (cw * dec 4 10) (ch * dec 3 10) false;
                 SpringPoint.new (cw * dec 6 10) (ch * dec 7 10) false;
                 SpringPoint.new (cw * dec 8 10) (ch * dec 5 10) true ];
     mousePos := Vector2.new (cw / lit 2) (ch / lit 2);
     gyroData := Build_GyroData (lit 0) (lit 0) (lit 0);
     gyroActive := false;
     orientationListener :=
       hasDeviceOrientation pf && negb (hasRequestPermission pf);
     lastTime := now_lastTime r;
     frameCount := lit 0;
     fpsTime := now_fpsTime r |}.

(** One run of the effect: [setup], then [animate()] runs its first frame. *)
Definition effect (pf : Platform) (m : Mode) (fps0 : A) (r : Readings) : Sim A :=
  updatePhysics (now_first r) (setup pf m fps0 r).

(** What can happen to a mounted component.  The effect's dependency list is
    [[mode, showTangents, showControls]]: a [setMode] that changes the mode, and
    every click on the Tangents or the Controls button, cleans the running
    effect up and runs the effect again, with new readings; a [setMode] to the
    mode in force is dropped.  [setFps] changes no dependency. *)
Inductive Event : Type :=
| AnimationFrame (currentTime : A)
| MouseMove (clientX clientY rectLeft rectTop : A)
| DeviceOrientation (e : OrientationEvent A)
| WindowResize (offsetWidth offsetHeight : A)
| SetMode (m : Mode) (r : Readings)
| ToggleDisplay (r : Readings).

Definition setMode (pf : Platform) (m : Mode) (r : Readings) (s : Sim A)
  : Sim A :=
  if Mode_eqb m (mode s) then s else effect pf m (fps s) r.

Definition toggleDisplay (pf : Platform) (r : Readings) (s : Sim A) : Sim A :=
  effect pf (mode s) (fps s) r.

Definition step (pf : Platform) (s : Sim A) (ev : Event) : Sim A :=
  match ev with
  | AnimationFrame currentTime => updatePhysics currentTime s
  | MouseMove clientX clientY rectLeft rectTop =>
      handleMouseMove clientX clientY rectLeft rectTop s
  | DeviceOrientation e =>
      if orientationListener s then handleOrientation e s else s
  | WindowResize offsetWidth offsetHeight => resize offsetWidth offsetHeight s
  | SetMode m r => setMode pf m r s
  | ToggleDisplay r => toggleDisplay pf r s
  end.

Definition run (pf : Platform) (evs : list Event) (s : Sim A) : Sim A :=
  fold_left (step pf) evs s.

End Effect.

Arguments Readings A : clear implicits.
Arguments Event A : clear implicits.

(** ** Vocabulary of the properties *)

Section Vocabulary.
Context {A : Type} `{Number A}.
Local Open Scope num_scope.

(** The curve of the end-to-end scenario, at [t = 0.5]. *)
Definition scenario_midpoint : Vector2 A :=
  bezierPoint (dec 5 10)
    (Vector2.new (lit 0) (lit 0)) (Vector2.new (lit 0) (lit 100))
    (Vector2.new (lit 100) (lit 100)) (Vector2.new (lit 100) (lit 0)).

(** A point built at [p] and given the target [T]: at rest, away from its
    target. *)
Definition released (p T : Vector2 A) : SpringPoint A :=
  SpringPoint.setTarget (Vector2.x T) (Vector2.y T)
    (SpringPoint.new (Vector2.x p) (Vector2.y p) false).

(** [n] calls of [update(1)]. *)
Definition after (n : nat) (this : SpringPoint A) : SpringPoint A :=
  Nat.iter n (SpringPoint.update (lit 1)) this.

Definition distance (this : SpringPoint A) : A :=
  Vector2.length
    (Vector2.subtract (SpringPoint.position this) (SpringPoint.target this)).

(** The events that run the effect again. *)
Definition reruns_effect (ev : Event A) : bool :=
  match ev with
  | SetMode _ _ | ToggleDisplay _ => true
  | _ => false
  end.

(** The offsets of a frame, when it assigns targets at all, and the targets
    it assigns from them: [applyInput] read branch by branch. *)
Definition offsets (s : Sim A) : option (A * A) :=
  match mode s with
  | mouse =>
      Some ((Vector2.x (mousePos s) - width s / lit 2) * dec 3 10,
            (Vector2.y (mousePos s) - height s / lit 2) * dec 3 10)
  | gyro =>
      if gyroActive s
      then Some ((gamma (gyroData s) / lit 90) * lit 150,
                 ((beta (gyroData s) - lit 90) / lit 90) * lit 150)
      else None
  end.

Definition assigned (s : Sim A) (offsetX offsetY : A) : Vector2 A * Vector2 A :=
  (Vector2.new (width s * dec 4 10 + offsetX) (height s * dec 3 10 + offsetY),
   Vector2.new (width s * dec 6 10 - offsetX) (height s * dec 7 10 - offsetY)).

(** The targets of the two inner points of a rig of four. *)
Definition inner_targets (s : Sim A) : option (Vector2 A * Vector2 A) :=
  match points s with
  | [ _; P1; P2; _ ] => Some (SpringPoint.target P1, SpringPoint.target P2)
  | _ => None
  end.

(** The inner targets are the ones the constructor gives, for the canvas size
    of the readings [r]. *)
Definition rest_targets (r : Readings A) (s : Sim A) : Prop :=
  inner_targets s
  = Some (Vector2.new (offsetWidth r * dec 4 10) (offsetHeight r * dec 3 10),
          Vector2.new (offsetWidth r * dec 6 10) (offsetHeight r * dec 7 10)).

(** Two browsers: one that offers [DeviceOrientationEvent.requestPermission],
    where the effect registers no orientation listener, and one that does not,
    where it registers [handleOrientation]. *)
Definition gated_platform : Platform :=
  {| hasDeviceOrientation := true; hasRequestPermission := true |}.

Definition open_platform : Platform :=
  {| hasDeviceOrientation := true; hasRequestPermission := false |}.

(** Readings on a canvas of 1000 by 500 at the time [now]. *)
Definition demo_readings (now : Z) : Readings A :=
  {| offsetWidth := lit 1000; offsetHeight := lit 500;
     now_lastTime := lit now; now_fpsTime := lit now; now_first := lit now |}.

(** A session: the component is mounted, the mouse moves to [(900, 400)] and
    a frame runs. *)
Definition pointer_events : list (Event A) :=
  [ MouseMove (lit 900) (lit 400) (lit 0) (lit 0); AnimationFrame (lit 16) ].

Definition pointer_session : Sim A :=
  run gated_platform pointer_events
      (effect gated_platform mouse (lit 60) (demo_readings 0)).

(** Then the mode is switched to [gyro] and another frame runs; no
    orientation event is received. *)
Definition switched_session : Sim A :=
  run gated_platform [ AnimationFrame (lit 48) ]
      (setMode gated_platform gyro (demo_readings 32) pointer_session).

(** A session in [gyro] mode in which the device reports a tilt. *)
Definition tilt_events : list (Event A) :=
  [ SetMode gyro (demo_readings 32);
    DeviceOrientation
      (Build_OrientationEvent (Some (lit 45)) (Some (lit 30)) None) ].

Definition tilted_session : Sim A :=
  run open_platform tilt_events
      (effect open_platform mouse (lit 60) (demo_readings 0)).

(** The frame on a canvas 433 wide and 768 high with the mouse at [(13, 1)]. *)
Definition narrow_session : Sim A :=
  run open_platform
      [ MouseMove (lit 13) (lit 1) (lit 0) (lit 0); AnimationFrame (lit 16) ]
      (effect open_platform mouse (lit 60)
              {| offsetWidth := lit 433; offsetHeight := lit 768;
                 now_lastTime := lit 0; now_fpsTime := lit 0;
                 now_first := lit 0 |}).

(** The sum of the two inner targets. *)
Definition inner_targets_sum (s : Sim A) : option (Vector2 A) :=
  match inner_targets s with
  | Some (t1, t2) => Some (Vector2.add t1 t2)
  | None => None
  end.

(** The four weights [bezierPoint] multiplies the control points by, as it
    computes them. *)
Definition weights (t : A) : A * A * A * A :=
  let t1 := lit 1 - t in
  let t1_2 := t1 * t1 in
  let t1_3 := t1_2 * t1 in
  let t_2 := t * t in
  let t_3 := t_2 * t in
  (t1_3, lit 3 * t1_2 * t, lit 3 * t1 * t_2, t_3).

(** The events that can come between two frames of one run of the effect:
    mouse moves, orientation events and resizes. *)
Definition input_event (ev : Event A) : bool :=
  match ev with
  | MouseMove _ _ _ _ | DeviceOrientation _ | WindowResize _ _ => true
  | AnimationFrame _ | SetMode _ _ | ToggleDisplay _ => false
  end.

(** The point is at least [eps] away from its target now and after each of
    the next [n] calls of [update(1)]. *)
Fixpoint beyond (eps : A) (n : nat) (this : SpringPoint A) : bool :=
  (distance this >=? eps)
  && match n with
     | O => true
     | S n' => beyond eps n' (SpringPoint.update (lit 1) this)
     end.

End Vocabulary.

(** *** binary64 numbers as the format specifies them *)

(** Zero or a number with mantissa and exponent: not NaN, not infinite. *)
Definition SF_finite (x : spec_float) : bool :=
  match x with
  | S754_zero _ | S754_finite _ _ _ => true
  | _ => false
  end.

Definition SF_zero (x : spec_float) : bool :=
  match x with
  | S754_zero _ => true
  | _ => false
  end.

(** Equal as [===] has it on numbers of the format: the same number, or two
    zeros of whatever signs. *)
Definition SF_same (x y : spec_float) : Prop :=
  match x, y with
  | S754_zero _, S754_zero _ => True
  | _, _ => x = y
  end.

Definition finite_point (p : Vector2 float) : bool :=
  PrimFloat.is_finite (Vector2.x p) && PrimFloat.is_finite (Vector2.y p).

(** None of the four weights at [t] has overflowed or is NaN. *)
Definition finite_weights (t : float) : bool :=
  let '(w0, w1, w2, w3) := weights t in
  PrimFloat.is_finite w0 && PrimFloat.is_finite w1
  && PrimFloat.is_finite w2 && PrimFloat.is_finite w3.

(** The state of a released point is its initial displacement scaled: by [c]
    for the displacement and by [w] for the velocity. *)
Definition scaled (p T : Vector2 R) (c w : R) (this : SpringPoint R) : Prop :=
  SpringPoint.position this
  = Vector2.new (Vector2.x T + c * (Vector2.x p - Vector2.x T))%R
                (Vector2.y T + c * (Vector2.y p - Vector2.y T))%R
  /\ SpringPoint.velocity this
     = Vector2.new (w * (Vector2.x p - Vector2.x T))%R
                   (w * (Vector2.y p - Vector2.y T))%R
  /\ SpringPoint.target this = T
  /\ SpringPoint.fixed this = false
  /\ SpringPoint.springConstant this = (15 / 100)%R
  /\ SpringPoint.damping this = (85 / 100)%R.

(** The cone the two scales stay in. *)
Definition in_cone (c w : R) : Prop := (0 <= c /\ - c <= w <= 0)%R.

(** ** Further vocabulary *)

Section FurtherVocabulary.
Context {A : Type} `{Number A}.
Local Open Scope num_scope.

(** [n] calls of [update(deltaTime)], as the loop makes them on a point when
    every frame yields the same step. *)
Definition after_step (deltaTime : A) (n : nat) (this : SpringPoint A)
  : SpringPoint A :=
  Nat.iter n (SpringPoint.update deltaTime) this.

(** The events that are animation frames, one per time stamp. *)
Definition frames (ts : list A) : list (Event A) := map AnimationFrame ts.

(** The shape of the rig between two runs of the effect: the two end points
    as the constructor made them from the readings [r], and two inner points
    that are not fixed. *)
Definition rig_of (r : Readings A) (l : list (SpringPoint A)) : Prop :=
  exists P1 P2,
    l = [ SpringPoint.new (offsetWidth r * dec 2 10) (offsetHeight r * dec 5 10)
                          true;
          P1; P2;
          SpringPoint.new (offsetWidth r * dec 8 10) (offsetHeight r * dec 5 10)
                          true ]
    /\ SpringPoint.fixed P1 = false /\ SpringPoint.fixed P2 = false.

End FurtherVocabulary.

(** ** The component around the effect *)

(** The state [gyroPermission] ranges over. *)
Inductive Permission : Type := unknown | needed | granted | denied.

(** How [DeviceOrientationEvent.requestPermission()] ends: the promise
    resolves to ['granted'], resolves to something else, or is rejected. *)
Inductive Outcome : Type := resolves_granted | resolves_other | rejects.

(** The React state of the component, with the state of the effect that is
    running ([mode] and [fps] are in [sim]) and the number of calls of
    [requestGyroPermission] that are waiting for their promise. *)
Record Component (A : Type) : Type := {
  sim : Sim A;
  showTangents : bool;
  showControls : bool;
  gyroSupported : bool;
  gyroPermission : Permission;
  awaiting : nat
}.
Arguments Build_Component {A} _ _ _ _ _ _.
Arguments sim {A} _.
Arguments showTangents {A} _.
Arguments showControls {A} _.
Arguments gyroSupported {A} _.
Arguments gyroPermission {A} _.
Arguments awaiting {A} _.

Section ComponentModel.
Context {A : Type} `{Number A}.

(** One run of the effect in the mode [m], with what it sets: where
    [window.DeviceOrientationEvent] exists, [setGyroSupported(true)], and
    [setGyroPermission('needed')] if it has [requestPermission]. *)
Definition runEffect (pf : Platform) (m : Mode) (r : Readings A)
           (c : Component A) : Component A :=
  {| sim := effect pf m (fps (sim c)) r;
     showTangents := showTangents c;
     showControls := showControls c;
     gyroSupported :=
       if hasDeviceOrientation pf then true else gyroSupported c;
     gyroPermission :=
       if hasDeviceOrientation pf && hasRequestPermission pf then needed
       else gyroPermission c;
     awaiting := awaiting c |}.

(** The component after its first render and effect: the initial values of
    the [useState] calls, and what the effect sets. *)
Definition mount (pf : Platform) (r : Readings A) : Component A :=
  {| sim := effect pf mouse (lit 60) r;
     showTangents := true;
     showControls := true;
     gyroSupported := if hasDeviceOrientation pf then true else false;
     gyroPermission :=
       if hasDeviceOrientation pf && hasRequestPermission pf then needed
       else unknown;
     awaiting := 0 |}.

(** [setMode(m)]: nothing if [m] is the mode in force, a new run of the
    effect if not. *)
Definition changeMode (pf : Platform) (m : Mode) (r : Readings A)
           (c : Component A) : Component A :=
  if Mode_eqb m (mode (sim c)) then c else runEffect pf m r c.

Definition setGyroPermission (p : Permission) (c : Component A)
  : Component A :=
  {| sim := sim c; showTangents := showTangents c;
     showControls := showControls c; gyroSupported := gyroSupported c;
     gyroPermission := p; awaiting := awaiting c |}.

Definition withAwaiting (n : nat) (c : Component A) : Component A :=
  {| sim := sim c; showTangents := showTangents c;
     showControls := showControls c; gyroSupported := gyroSupported c;
     gyroPermission := gyroPermission c; awaiting := n |}.

(** [requestGyroPermission] up to its [await]. *)
Definition requestGyroPermission (pf : Platform) (c : Component A)
  : Component A :=
  if hasRequestPermission pf then withAwaiting (S (awaiting c)) c else c.

(** [requestGyroPermission] from its [await] on, given how the request
    ended.  The listener it adds on a grant does nothing. *)
Definition requestGyroPermission_resumes (pf : Platform) (o : Outcome)
           (r : Readings A) (c : Component A) : Component A :=
  match o with
  | resolves_granted => changeMode pf gyro r (setGyroPermission granted c)
  | resolves_other => setGyroPermission denied c
  | rejects => setGyroPermission denied c
  end.

Definition withSim (s : Sim A) (c : Component A) : Component A :=
  {| sim := s; showTangents := showTangents c;
     showControls := showControls c; gyroSupported := gyroSupported c;
     gyroPermission := gyroPermission c; awaiting := awaiting c |}.

(** What the browser and the user can do to the mounted component.  A click
    needs its button: Mouse Mode, Tangents and Controls are always rendered,
    Enable Gyro when [gyroSupported] and the permission is ['needed'], Gyro
    Mode when [gyroSupported] and it is ['granted'].  A permission request
    settles only if one is waiting.  The readings are those of the run of
    the effect that the action causes, if it causes one. *)
Inductive Action : Type :=
| Tick (currentTime : A)
| Pointer (clientX clientY rectLeft rectTop : A)
| Orientation (e : OrientationEvent A)
| Resized (offsetWidth offsetHeight : A)
| ClickMouseMode (r : Readings A)
| ClickEnableGyro
| RequestSettles (o : Outcome) (r : Readings A)
| ClickGyroMode (r : Readings A)
| ClickTangents (r : Readings A)
| ClickControls (r : Readings A).

Definition Permission_eqb (p q : Permission) : bool :=
  match p, q with
  | unknown, unknown | needed, needed | granted, granted | denied, denied =>
      true
  | _, _ => false
  end.

Definition act (pf : Platform) (c : Component A) (a : Action) : Component A :=
  match a with
  | Tick currentTime => withSim (step pf (sim c) (AnimationFrame currentTime)) c
  | Pointer clientX clientY rectLeft rectTop =>
      withSim (step pf (sim c) (MouseMove clientX clientY rectLeft rectTop)) c
  | Orientation e => withSim (step pf (sim c) (DeviceOrientation e)) c
  | Resized offsetWidth offsetHeight =>
      withSim (step pf (sim c) (WindowResize offsetWidth offsetHeight)) c
  | ClickMouseMode r => changeMode pf mouse r c
  | ClickEnableGyro =>
      if gyroSupported c && Permission_eqb (gyroPermission c) needed
      then requestGyroPermission pf c else c
  | RequestSettles o r =>
      match awaiting c with
      | O => c
      | S n => requestGyroPermission_resumes pf o r (withAwaiting n c)
      end
  | ClickGyroMode r =>
      if gyroSupported c && Permission_eqb (gyroPermission c) granted
      then changeMode pf gyro r c else c
  | ClickTangents r =>
      runEffect pf (mode (sim c)) r
        {| sim := sim c; showTangents := negb (showTangents c);
           showControls := showControls c; gyroSupported := gyroSupported c;
           gyroPermission := gyroPermission c; awaiting := awaiting c |}
  | ClickControls r =>
      runEffect pf (mode (sim c)) r
        {| sim := sim c; showTangents := showTangents c;
           showControls := negb (showControls c);
           gyroSupported := gyroSupported c;
           gyroPermission := gyroPermission c; awaiting := awaiting c |}
  end.

Definition play (pf : Platform) (acts : list Action) (c : Component A)
  : Component A :=
  fold_left (act pf) acts c.

(** What holds of a component however it was reached: the orientation
    listener is registered exactly on the browsers without
    [requestPermission], samples only arrive through it, and only on the
    browsers with [requestPermission] has the permission left ['unknown'], is
    a request waiting, or is the mode [gyro]. *)
Definition wired (pf : Platform) (c : Component A) : Prop :=
  orientationListener (sim c)
  = hasDeviceOrientation pf && negb (hasRequestPermission pf)
  /\ (gyroActive (sim c) = true -> orientationListener (sim c) = true)
  /\ (gyroSupported c = true -> hasDeviceOrientation pf = true)
  /\ (gyroPermission c <> unknown ->
      hasDeviceOrientation pf && hasRequestPermission pf = true)
  /\ (awaiting c <> O ->
      hasDeviceOrientation pf && hasRequestPermission pf = true)
  /\ (mode (sim c) = gyro ->
      hasDeviceOrientation pf && hasRequestPermission pf = true).

End ComponentModel.

Arguments Action A : clear implicits.

(** ** Rendering module *)

(** The functions of [Math] that the rendering calls. *)
Class MathLib (A : Type) : Type := {
  Math_PI : A;
  Math_atan2 : A -> A -> A;
  Math_cos : A -> A;
  Math_sin : A -> A
}.

(** [Math.atan2(y, x)] on real numbers: the angle of the point [(x, y)], in
    the interval from [- PI] (excluded) to [PI], and 0 at the origin. *)
Definition atan2_R (y x : R) : R :=
  if Rlt_dec 0 x then atan (y / x)
  else if Rlt_dec x 0 then
    if Rle_dec 0 y then atan (y / x) + PI else atan (y / x) - PI
  else if Rlt_dec 0 y then PI / 2
  else if Rlt_dec y 0 then - (PI / 2)
  else 0.

#[export] Instance MathLib_R : MathLib R := {|
  Math_PI := PI;
  Math_atan2 := atan2_R;
  Math_cos := cos;
  Math_sin := sin
|}.

(** What is recorded in a [Path2D]. *)
Inductive PathCmd (A : Type) : Type :=
| moveTo (x y : A)
| lineTo (x y : A).
Arguments moveTo {A} _ _.
Arguments lineTo {A} _ _.

(** What the rendering does to the 2D context [ctx]: assignments to its
    properties and calls of its methods, in the order of execution. *)
Inductive Draw (A : Type) : Type :=
| set_strokeStyle (style : string)
| set_fillStyle (style : string)
| set_lineWidth (w : A)
| set_shadowColor (color : string)
| set_shadowBlur (blur : A)
| ctx_stroke_path (path : list (PathCmd A))
| ctx_beginPath
| ctx_moveTo (x y : A)
| ctx_lineTo (x y : A)
| ctx_closePath
| ctx_stroke
| ctx_fill.
Arguments set_strokeStyle {A} _.
Arguments set_fillStyle {A} _.
Arguments set_lineWidth {A} _.
Arguments set_shadowColor {A} _.
Arguments set_shadowBlur {A} _.
Arguments ctx_stroke_path {A} _.
Arguments ctx_beginPath {A}.
Arguments ctx_moveTo {A} _ _.
Arguments ctx_lineTo {A} _ _.
Arguments ctx_closePath {A}.
Arguments ctx_stroke {A}.
Arguments ctx_fill {A}.

Section Rendering.
Context {A : Type} `{Number A} `{MathLib A}.
Local Open Scope num_scope.

(** [points[0].position], ..., [points[3].position]; reading [position] of a
    point that is not there throws. *)
Definition positions (points : list (SpringPoint A))
  : option (Vector2 A * Vector2 A * Vector2 A * Vector2 A) :=
  match nth_error points 0, nth_error points 1,
        nth_error points 2, nth_error points 3 with
  | Some P0, Some P1, Some P2, Some P3 =>
      Some (SpringPoint.position P0, SpringPoint.position P1,
            SpringPoint.position P2, SpringPoint.position P3)
  | _, _, _, _ => None
  end.

(** The path [drawCurve] builds: one vertex for each [i] from 0 to [steps]. *)
Definition curvePath (steps : nat) (p0 p1 p2 p3 : Vector2 A)
  : list (PathCmd A) :=
  map (fun i : nat =>
         let t := lit (Z.of_nat i) / lit (Z.of_nat steps) in
         let point := bezierPoint t p0 p1 p2 p3 in
         if Nat.eqb i 0 then moveTo (Vector2.x point) (Vector2.y point)
         else lineTo (Vector2.x point) (Vector2.y point))
      (seq 0 (S steps)).

(** [drawCurve()]; [None] if it throws, which it does before it draws. *)
Definition drawCurve (points : list (SpringPoint A))
  : option (list (Draw A)) :=
  match positions points with
  | None => None
  | Some (p0, p1, p2, p3) =>
      let steps := 100%nat in
      let path := curvePath steps p0 p1 p2 p3 in
      Some [ set_strokeStyle "#3b82f6"%string;
             set_lineWidth (lit 3);
             set_shadowColor "rgba(59, 130, 246, 0.5)"%string;
             set_shadowBlur (lit 10);
             ctx_stroke_path path;
             set_shadowBlur (lit 0) ]
  end.

(** One turn of the loop of [drawTangents]: the tangent line and its
    arrowhead at [t = i / tangentCount]. *)
Definition drawTangent (tangentCount : nat) (tangentLength : A) (i : nat)
           (p0 p1 p2 p3 : Vector2 A) : list (Draw A) :=
  let t := lit (Z.of_nat i) / lit (Z.of_nat tangentCount) in
  let point := bezierPoint t p0 p1 p2 p3 in
  let tangent := bezierTangent t p0 p1 p2 p3 in
  let normalized := Vector2.normalize tangent in
  let start :=
    Vector2.subtract point
      (Vector2.multiply normalized (tangentLength / lit 2)) in
  let end_ :=
    Vector2.add point (Vector2.multiply normalized (tangentLength / lit 2)) in
  let arrowSize := lit 8 in
  let angle := Math_atan2 (Vector2.y normalized) (Vector2.x normalized) in
  [ ctx_beginPath;
    set_strokeStyle "#ef4444"%string;
    set_lineWidth (lit 2);
    ctx_moveTo (Vector2.x start) (Vector2.y start);
    ctx_lineTo (Vector2.x end_) (Vector2.y end_);
    ctx_stroke;
    ctx_beginPath;
    set_fillStyle "#ef4444"%string;
    ctx_moveTo (Vector2.x end_) (Vector2.y end_);
    ctx_lineTo
      (Vector2.x end_ - arrowSize * Math_cos (angle - Math_PI / lit 6))
      (Vector2.y end_ - arrowSize * Math_sin (angle - Math_PI / lit 6));
    ctx_lineTo
      (Vector2.x end_ - arrowSize * Math_cos (angle + Math_PI / lit 6))
      (Vector2.y end_ - arrowSize * Math_sin (angle + Math_PI / lit 6));
    ctx_closePath;
    ctx_fill ].

(** [drawTangents()]; [None] if it throws, which it does before it draws. *)
Definition drawTangents (points : list (SpringPoint A))
  : option (list (Draw A)) :=
  match positions points with
  | None => None
  | Some (p0, p1, p2, p3) =>
      let tangentCount := 12%nat in
      let tangentLength := lit 40 in
      Some (flat_map
              (fun i => drawTangent tangentCount tangentLength i p0 p1 p2 p3)
              (seq 0 (S tangentCount)))
  end.

(** The point a path command names. *)
Definition vertex (c : PathCmd A) : Vector2 A :=
  match c with
  | moveTo x y => Vector2.new x y
  | lineTo x y => Vector2.new x y
  end.

End Rendering.

(** The bounding box of four points. *)
Definition in_box (p0 p1 p2 p3 v : Vector2 R) : Prop :=
  (Rmin (Rmin (Vector2.x p0) (Vector2.x p1))
       (Rmin (Vector2.x p2) (Vector2.x p3))
  <= Vector2.x v
  <= Rmax (Rmax (Vector2.x p0) (Vector2.x p1))
          (Rmax (Vector2.x p2) (Vector2.x p3))
  /\ Rmin (Rmin (Vector2.y p0) (Vector2.y p1))
          (Rmin (Vector2.y p2) (Vector2.y p3))
     <= Vector2.y v
     <= Rmax (Rmax (Vector2.y p0) (Vector2.y p1))
             (Rmax (Vector2.y p2) (Vector2.y p3)))%R.

(** * Properties *)

Local Open Scope R_scope.

(** Reading the interface at [R]. *)
Ltac at_R :=
  cbv [dec] in *;
  cbn [lit nadd nsub nmul ndiv nneg nsqrt nmin neqb ngeb truthy Number_R] in *.

Ltac vec_eq :=
  cbv [Vector2.add Vector2.subtract Vector2.multiply]; at_R;
  cbn [Vector2.x Vector2.y]; f_equal; try ring; try field.

Ltac fields :=
  cbn [SpringPoint.position SpringPoint.velocity SpringPoint.target
       SpringPoint.fixed SpringPoint.springConstant SpringPoint.damping
       Vector2.x Vector2.y] in *.

(** ** The numbers of the script *)

(** In binary64 [dec] yields the double a decimal literal of the script
    denotes. *)
Remark literals_binary64 :
  dec 15 100 = 0.15%float /\ dec 85 100 = 0.85%float
  /\ dec 1667 100 = 16.67%float /\ dec 5 10 = 0.5%float
  /\ dec 2 10 = 0.2%float /\ dec 3 10 = 0.3%float /\ dec 4 10 = 0.4%float
  /\ dec 6 10 = 0.6%float /\ dec 7 10 = 0.7%float /\ dec 8 10 = 0.8%float.
Proof. vm_compute. repeat split. Qed.

Lemma Req_bool_true (a b : R) : Req_bool a b = true <-> a = b.
Proof. unfold Req_bool. destruct (Req_dec_T a b); split; congruence. Qed.

Lemma Req_bool_false (a b : R) : Req_bool a b = false <-> a <> b.
Proof. unfold Req_bool. destruct (Req_dec_T a b); split; congruence. Qed.

(** *** Products with one and zero and sums with zero, in binary64 *)

Lemma digits2_pos_shift52 (m : positive) :
  (Zpos (digits2_pos (4503599627370496 * m)) = Zpos (digits2_pos m) + 52)%Z.
Proof.
  cbn [Pos.mul digits2_pos]. rewrite !Pos2Z.inj_succ. lia.
Qed.

Lemma shr_52 (m : positive) :
  SpecFloat.iter_pos shr_1 52
    {| shr_m := Zpos (4503599627370496 * m); shr_r := false; shr_s := false |}
  = {| shr_m := Zpos m; shr_r := false; shr_s := false |}.
Proof. reflexivity. Qed.

(** The product of one, [2 ^ 52 * 2 ^ -52], and a number of the format is
    rounded to that number: the 52 bits shifted out are zeros. *)
Lemma SF64mul_one_finite (s : bool) (m : positive) (e : Z) :
  SpecFloat.bounded prec emax m e = true ->
  SF64mul (S754_finite false 4503599627370496 (-52)) (S754_finite s m e)
  = S754_finite s m e.
Proof.
  intros B. unfold SpecFloat.bounded in B. apply andb_prop in B. destruct B as [C L].
  unfold canonical_mantissa in C. apply Z.eqb_eq in C.
  unfold SF64mul, SFmul. cbn [xorb].
  unfold binary_round_aux, shr_fexp.
  cbn [Zdigits2]. rewrite digits2_pos_shift52.
  replace (Z.pos (digits2_pos m) + 52 + (-52 + e))%Z
    with (Z.pos (digits2_pos m) + e)%Z by lia.
  rewrite C.
  replace (e - (-52 + e))%Z with 52%Z by lia.
  cbn [shr shr_record_of_loc].
  rewrite shr_52.
  cbn [shr_m loc_of_shr_record round_nearest_even Zdigits2].
  replace (-52 + e + 52)%Z with e by lia.
  rewrite C, Z.sub_diag. cbn [shr shr_record_of_loc shr_m].
  rewrite L. reflexivity.
Qed.

Lemma is_finite_SF (a : float) :
  PrimFloat.is_finite a = true -> SF_finite (Prim2SF a) = true.
Proof.
  unfold PrimFloat.is_finite, PrimFloat.is_nan, PrimFloat.is_infinity.
  rewrite !FloatAxioms.eqb_spec, FloatAxioms.abs_spec.
  destruct (Prim2SF a) as [ s | s | | s m e ]; cbn; try reflexivity.
  - destruct s; vm_compute; discriminate.
  - intros E; exact E.
Qed.

Lemma mul_one_l (a : float) :
  PrimFloat.is_finite a = true -> (1 * a)%float = a.
Proof.
  intros F. apply is_finite_SF in F. apply Prim2SF_inj.
  rewrite mul_spec. pose proof (Prim2SF_valid a) as V.
  change (Prim2SF 1) with (S754_finite false 4503599627370496 (-52)).
  destruct (Prim2SF a) as [ s | s | | s m e ]; try discriminate F.
  - reflexivity.
  - now apply SF64mul_one_finite.
Qed.

Lemma mul_zero_l (a : float) :
  PrimFloat.is_finite a = true -> SF_zero (Prim2SF (0 * a)%float) = true.
Proof.
  intros F. apply is_finite_SF in F. rewrite mul_spec.
  change (Prim2SF 0) with (S754_zero false).
  destruct (Prim2SF a) as [ s | s | | s m e ]; try discriminate F; reflexivity.
Qed.

Lemma add_zeros (u v : float) :
  SF_zero (Prim2SF u) = true -> SF_zero (Prim2SF v) = true ->
  SF_zero (Prim2SF (u + v)%float) = true.
Proof.
  rewrite add_spec. intros U V.
  destruct (Prim2SF u) as [ s | s | | s m e ]; try discriminate U.
  destruct (Prim2SF v) as [ s' | s' | | s' m' e' ]; try discriminate V.
  now destruct s, s'.
Qed.

Lemma add_zero_r (u z a : float) :
  SF_finite (Prim2SF a) = true ->
  SF_same (Prim2SF u) (Prim2SF a) -> SF_zero (Prim2SF z) = true ->
  SF_same (Prim2SF (u + z)%float) (Prim2SF a).
Proof.
  rewrite add_spec. intros F E Z.
  destruct (Prim2SF z) as [ sz | sz | | sz mz ez ]; try discriminate Z.
  destruct (Prim2SF a) as [ s | s | | s m e ]; try discriminate F;
    destruct (Prim2SF u) as [ s' | s' | | s' m' e' ]; cbn in E |- *;
    try discriminate E; try exact E.
  now destruct s', sz.
Qed.

Lemma add_zero_l (z d : float) :
  SF_finite (Prim2SF d) = true -> SF_zero (Prim2SF z) = true ->
  SF_same (Prim2SF (z + d)%float) (Prim2SF d).
Proof.
  rewrite add_spec. intros F Z.
  destruct (Prim2SF z) as [ sz | sz | | sz mz ez ]; try discriminate Z.
  destruct (Prim2SF d) as [ s | s | | s m e ]; try discriminate F; cbn.
  - now destruct sz, s.
  - reflexivity.
Qed.

Lemma SF_same_refl (x : spec_float) : SF_same x x.
Proof. now destruct x. Qed.

Lemma SF_same_eqb (r a : float) :
  SF_finite (Prim2SF a) = true -> SF_same (Prim2SF r) (Prim2SF a) ->
  PrimFloat.eqb r a = true.
Proof.
  rewrite FloatAxioms.eqb_spec. intros F E.
  destruct (Prim2SF a) as [ s | s | | s m e ]; try discriminate F;
    destruct (Prim2SF r) as [ s' | s' | | s' m' e' ]; cbn in E;
    try discriminate E; try reflexivity.
  injection E as -> -> ->.
  unfold SFeqb, SFcompare. rewrite Z.compare_refl, Pos.compare_cont_refl.
  now destruct s.
Qed.

(** The blend at [t = 0], weights 1, 0, 0, 0, and at [t = 1], weights 0, 0,
    0, 1, of four finite doubles. *)
Lemma blend_at_0 (a b c d : float) :
  PrimFloat.is_finite a = true -> PrimFloat.is_finite b = true ->
  PrimFloat.is_finite c = true -> PrimFloat.is_finite d = true ->
  PrimFloat.eqb (1 * a + 0 * b + 0 * c + 0 * d)%float a = true.
Proof.
  intros Fa Fb Fc Fd.
  pose proof (is_finite_SF a Fa) as Sa.
  apply SF_same_eqb; [ exact Sa | ].
  repeat (apply add_zero_r; [ exact Sa | | now apply mul_zero_l ]).
  rewrite mul_one_l by exact Fa. apply SF_same_refl.
Qed.

Lemma blend_at_1 (a b c d : float) :
  PrimFloat.is_finite a = true -> PrimFloat.is_finite b = true ->
  PrimFloat.is_finite c = true -> PrimFloat.is_finite d = true ->
  PrimFloat.eqb (0 * a + 0 * b + 0 * c + 1 * d)%float d = true.
Proof.
  intros Fa Fb Fc Fd.
  pose proof (is_finite_SF d Fd) as Sd.
  apply SF_same_eqb; [ exact Sd | ].
  rewrite (mul_one_l d Fd).
  apply add_zero_l; [ exact Sd | ].
  repeat apply add_zeros; now apply mul_zero_l.
Qed.

(** A product with zero is a zero when the other factor is finite and NaN
    when it is infinite or NaN; a sum of such terms is a zero when all are
    zeros and NaN when one is NaN. *)
Lemma is_finite_SF_eq (a : float) :
  PrimFloat.is_finite a = SF_finite (Prim2SF a).
Proof.
  unfold PrimFloat.is_finite, PrimFloat.is_nan, PrimFloat.is_infinity.
  rewrite !FloatAxioms.eqb_spec, FloatAxioms.abs_spec.
  destruct (Prim2SF a) as [ s | s | | s m e ]; cbn; try reflexivity.
  - destruct s; vm_compute; reflexivity.
  - unfold SFeqb, SFcompare. rewrite Z.compare_refl, Pos.compare_cont_refl.
    now destruct s.
Qed.

Lemma mul_zero_r (w : float) :
  if PrimFloat.is_finite w then SF_zero (Prim2SF (w * 0)%float) = true
  else Prim2SF (w * 0)%float = S754_nan.
Proof.
  rewrite is_finite_SF_eq, mul_spec.
  change (Prim2SF 0) with (S754_zero false).
  destruct (Prim2SF w) as [ s | s | | s m e ]; reflexivity.
Qed.

Lemma add_zero_or_nan (u v : float) (a b : bool) :
  (if a then SF_zero (Prim2SF u) = true else Prim2SF u = S754_nan) ->
  (if b then SF_zero (Prim2SF v) = true else Prim2SF v = S754_nan) ->
  if a && b then SF_zero (Prim2SF (u + v)%float) = true
  else Prim2SF (u + v)%float = S754_nan.
Proof.
  rewrite add_spec. destruct a, b; cbn [andb]; intros U V.
  - destruct (Prim2SF u) as [ s | s | | s m e ]; try discriminate U.
    destruct (Prim2SF v) as [ s' | s' | | s' m' e' ]; try discriminate V.
    now destruct s, s'.
  - rewrite V. now destruct (Prim2SF u).
  - rewrite U. now destruct (Prim2SF v).
  - rewrite U, V. reflexivity.
Qed.

Lemma zero_eqb (r : float) :
  SF_zero (Prim2SF r) = true -> PrimFloat.eqb r 0 = true.
Proof.
  rewrite FloatAxioms.eqb_spec. change (Prim2SF 0) with (S754_zero false).
  destruct (Prim2SF r) as [ s | s | | s m e ]; try discriminate. reflexivity.
Qed.

Lemma nan_is_nan (r : float) :
  Prim2SF r = S754_nan -> PrimFloat.is_nan r = true.
Proof.
  unfold PrimFloat.is_nan. rewrite FloatAxioms.eqb_spec. now intros ->.
Qed.

(** The blend of four zeros: a zero when the four weights are finite, NaN
    when one of them is not. *)
Lemma blend_of_zeros (w0 w1 w2 w3 : float) :
  let f := PrimFloat.is_finite w0 && PrimFloat.is_finite w1
           && PrimFloat.is_finite w2 && PrimFloat.is_finite w3 in
  let v := (w0 * 0 + w1 * 0 + w2 * 0 + w3 * 0)%float in
  if f then PrimFloat.eqb v 0 = true else PrimFloat.is_nan v = true.
Proof.
  cbv zeta.
  pose proof (@add_zero_or_nan _ _ _ _
                (@add_zero_or_nan _ _ _ _
                   (@add_zero_or_nan _ _ _ _ (mul_zero_r w0) (mul_zero_r w1))
                   (mul_zero_r w2))
                (mul_zero_r w3)) as C.
  destruct (PrimFloat.is_finite w0 && PrimFloat.is_finite w1
            && PrimFloat.is_finite w2 && PrimFloat.is_finite w3).
  - now apply zero_eqb.
  - now apply nan_is_nan.
Qed.

(** ** The curve *)

(** C2.  Whatever the four control points, the curve starts at [p0] and ends
    at [p3]: [bezierPoint] at [t = 0] is [p0], and at [t = 1] is [p3].  This
    is so in exact arithmetic, and also in binary64 for finite control points,
    where each coordinate of the result compares equal ([===]) to that of the
    end point: the products with the weights 0 and 1 and the sums with zero
    are not rounded. *)
Theorem bezierPoint_endpoints :
  (forall p0 p1 p2 p3 : Vector2 R,
      bezierPoint 0 p0 p1 p2 p3 = p0 /\ bezierPoint 1 p0 p1 p2 p3 = p3)
  /\ (forall p0 p1 p2 p3 : Vector2 float,
         finite_point p0 = true -> finite_point p1 = true ->
         finite_point p2 = true -> finite_point p3 = true ->
         let b0 := bezierPoint (lit 0) p0 p1 p2 p3 in
         let b1 := bezierPoint (lit 1) p0 p1 p2 p3 in
         PrimFloat.eqb (Vector2.x b0) (Vector2.x p0) = true
         /\ PrimFloat.eqb (Vector2.y b0) (Vector2.y p0) = true
         /\ PrimFloat.eqb (Vector2.x b1) (Vector2.x p3) = true
         /\ PrimFloat.eqb (Vector2.y b1) (Vector2.y p3) = true).
Proof.
  split.
  - intros [x0 y0] [x1 y1] [x2 y2] [x3 y3].
    split; cbv [bezierPoint]; vec_eq.
  - intros [x0 y0] [x1 y1] [x2 y2] [x3 y3] F0 F1 F2 F3.
    cbv [finite_point Vector2.x Vector2.y] in F0, F1, F2, F3.
    apply andb_prop in F0, F1, F2, F3.
    destruct F0 as [Fx0 Fy0], F1 as [Fx1 Fy1], F2 as [Fx2 Fy2],
             F3 as [Fx3 Fy3].
    cbv zeta.
    repeat split; vm_compute;
      first [ now apply blend_at_0 | now apply blend_at_1 ].
Qed.

(** C2 on the control points of the end-to-end scenario, in exact arithmetic,
    and in binary64 on points with fractions that are not doubles. *)
Lemma bezierPoint_endpoints_witness :
  (bezierPoint 0 (Vector2.new 0 0) (Vector2.new 0 100) (Vector2.new 100 100)
               (Vector2.new 100 0) = Vector2.new 0 0
   /\ bezierPoint 1 (Vector2.new 0 0) (Vector2.new 0 100)
                  (Vector2.new 100 100) (Vector2.new 100 0)
      = Vector2.new 100 0)
  /\ (let p0 := Vector2.new 0.1%float (-0.7)%float in
      let p1 := Vector2.new 1e300%float 3.3%float in
      let p2 := Vector2.new (-2.5e-310)%float 0%float in
      let p3 := Vector2.new 123.456%float (-0)%float in
      finite_point p0 = true /\ finite_point p1 = true
      /\ finite_point p2 = true /\ finite_point p3 = true
      /\ PrimFloat.eqb (Vector2.x (bezierPoint (lit 0) p0 p1 p2 p3)) 0.1%float
         = true
      /\ PrimFloat.eqb (Vector2.y (bezierPoint (lit 1) p0 p1 p2 p3)) 0%float
         = true).
Proof.
  split.
  - exact (proj1 bezierPoint_endpoints (Vector2.new 0 0) (Vector2.new 0 100)
             (Vector2.new 100 100) (Vector2.new 100 0)).
  - cbv zeta. do 4 (split; [ reflexivity | ]).
    pose proof (proj2 bezierPoint_endpoints
                  (Vector2.new 0.1%float (-0.7)%float)
                  (Vector2.new 1e300%float 3.3%float)
                  (Vector2.new (-2.5e-310)%float 0%float)
                  (Vector2.new 123.456%float (-0)%float)
                  eq_refl eq_refl eq_refl eq_refl) as W.
    cbv zeta in W. destruct W as (X0 & _ & _ & Y1).
    split; [ exact X0 | exact Y1 ].
Defined.

(** A cubic in the monomial basis and its derivative. *)
Lemma derivable_pt_lim_cubic (a0 a1 a2 a3 t : R) :
  derivable_pt_lim (fun u => a0 + a1 * u + a2 * (u * u) + a3 * (u * u * u)) t
                   (a1 + 2 * a2 * t + 3 * a3 * (t * t)).
Proof.
  pose proof (derivable_pt_lim_const a0 t) as D0.
  pose proof (derivable_pt_lim_id t) as D1.
  pose proof (derivable_pt_lim_mult _ _ _ _ _ D1 D1) as D2.
  pose proof (derivable_pt_lim_mult _ _ _ _ _ D2 D1) as D3.
  pose proof (derivable_pt_lim_scal _ a1 _ _ D1) as E1.
  pose proof (derivable_pt_lim_scal _ a2 _ _ D2) as E2.
  pose proof (derivable_pt_lim_scal _ a3 _ _ D3) as E3.
  pose proof (derivable_pt_lim_plus _ _ _ _ _
                (derivable_pt_lim_plus _ _ _ _ _
                   (derivable_pt_lim_plus _ _ _ _ _ D0 E1) E2) E3) as D.
  cbv [plus_fct mult_fct mult_real_fct fct_cte id] in D.
  replace (a1 + 2 * a2 * t + 3 * a3 * (t * t))
    with (0 + a1 * 1 + a2 * (1 * t + t * 1) + a3 * ((1 * t + t * 1) * t + t * t * 1))
    by ring.
  exact D.
Qed.

(** The derivative of a function only depends on its values. *)
Lemma derivable_pt_lim_ext (f g : R -> R) (t l : R) :
  (forall u, f u = g u) -> derivable_pt_lim g t l -> derivable_pt_lim f t l.
Proof.
  intros E D eps Heps. destruct (D eps Heps) as [delta Hd].
  exists delta. intros h Hh Hlt. rewrite !E. now apply Hd.
Qed.

(** A coordinate of the curve is a cubic in [t] whose coefficients come from
    the control polygon; its derivative is that coordinate of the tangent. *)
Lemma derivable_pt_lim_bernstein (a b c d t : R) :
  derivable_pt_lim
    (fun u => (1 - u) * (1 - u) * (1 - u) * a + 3 * ((1 - u) * (1 - u)) * u * b
              + 3 * (1 - u) * (u * u) * c + u * u * u * d) t
    (3 * ((1 - t) * (1 - t)) * (b - a) + 6 * (1 - t) * t * (c - b)
     + 3 * (t * t) * (d - c)).
Proof.
  apply derivable_pt_lim_ext
    with (g := fun u => a + (3 * (b - a)) * u + (3 * (a - 2 * b + c)) * (u * u)
                        + (d - 3 * c + 3 * b - a) * (u * u * u)).
  - intros u. ring.
  - replace (3 * ((1 - t) * (1 - t)) * (b - a) + 6 * (1 - t) * t * (c - b)
             + 3 * (t * t) * (d - c))
      with (3 * (b - a) + 2 * (3 * (a - 2 * b + c)) * t
            + 3 * (d - 3 * c + 3 * b - a) * (t * t)) by ring.
    apply derivable_pt_lim_cubic.
Qed.

(** C3.  For every [t] and all control points, each coordinate of
    [bezierTangent] is the derivative with respect to [t] of that coordinate of
    [bezierPoint], and the tangent is the sum of the consecutive differences
    [p1 - p0], [p2 - p1], [p3 - p2] weighted by [3(1-t)^2], [6(1-t)t], [3t^2]. *)
Theorem bezierTangent_derivative (t : R) (p0 p1 p2 p3 : Vector2 R) :
  derivable_pt_lim (fun u => Vector2.x (bezierPoint u p0 p1 p2 p3)) t
                   (Vector2.x (bezierTangent t p0 p1 p2 p3))
  /\ derivable_pt_lim (fun u => Vector2.y (bezierPoint u p0 p1 p2 p3)) t
                      (Vector2.y (bezierTangent t p0 p1 p2 p3))
  /\ bezierTangent t p0 p1 p2 p3 =
     Vector2.add
       (Vector2.add
          (Vector2.multiply (Vector2.subtract p1 p0) (3 * (1 - t) ^ 2))
          (Vector2.multiply (Vector2.subtract p2 p1) (6 * (1 - t) * t)))
       (Vector2.multiply (Vector2.subtract p3 p2) (3 * t ^ 2)).
Proof.
  destruct p0 as [x0 y0], p1 as [x1 y1], p2 as [x2 y2], p3 as [x3 y3].
  cbv [bezierPoint bezierTangent]; at_R; cbn [Vector2.x Vector2.y].
  split; [ apply derivable_pt_lim_bernstein | ].
  split; [ apply derivable_pt_lim_bernstein | ].
  vec_eq.
Qed.

(** C8, as the code has it.  With the four control points at the origin the
    curve is the origin: for every real [t] in exact arithmetic, and in
    binary64 at every [t] at which the four weights the function computes are
    finite, where each coordinate compares equal ([===]) to 0; at every
    other [t] the weights have overflowed and both coordinates are NaN.  The
    weights are finite at the 101 parameters [i / 100] of [drawCurve], and
    are not at [t = 1e200].  With [p0 = (0,0)], [p1 = (0,100)],
    [p2 = (100,100)], [p3 = (100,0)] the point at [t = 0.5] is [(50, 75)], in
    exact arithmetic and in binary64 alike. *)
Theorem bezierPoint_scenario :
  (forall t : R,
      bezierPoint t (Vector2.new 0 0) (Vector2.new 0 0) (Vector2.new 0 0)
                  (Vector2.new 0 0) = Vector2.new 0 0)
  /\ (forall t : float,
         let b := bezierPoint t (Vector2.new (lit 0) (lit 0))
                              (Vector2.new (lit 0) (lit 0))
                              (Vector2.new (lit 0) (lit 0))
                              (Vector2.new (lit 0) (lit 0)) in
         (finite_weights t = true ->
          PrimFloat.eqb (Vector2.x b) 0%float = true
          /\ PrimFloat.eqb (Vector2.y b) 0%float = true)
         /\ (finite_weights t = false ->
             PrimFloat.is_nan (Vector2.x b) = true
             /\ PrimFloat.is_nan (Vector2.y b) = true))
  /\ forallb (fun i : nat =>
                finite_weights (lit (Z.of_nat i) / lit 100)%num)
             (seq 0 101) = true
  /\ finite_weights 1e200%float = false
  /\ scenario_midpoint (A := R) = Vector2.new 50 75
  /\ scenario_midpoint (A := float) = Vector2.new 50%float 75%float.
Proof.
  split; [ | split; [ | split; [ | split; [ | split ] ] ] ].
  - intros t. cbv [bezierPoint]; vec_eq.
  - intros t. cbv zeta.
    pose proof (blend_of_zeros (fst (fst (fst (weights t))))
                  (snd (fst (fst (weights t)))) (snd (fst (weights t)))
                  (snd (weights t))) as B.
    cbv zeta in B.
    change (PrimFloat.is_finite (fst (fst (fst (weights t))))
            && PrimFloat.is_finite (snd (fst (fst (weights t))))
            && PrimFloat.is_finite (snd (fst (weights t)))
            && PrimFloat.is_finite (snd (weights t)))
      with (finite_weights t) in B.
    split; intros F; rewrite F in B; split; exact B.
  - vm_compute. reflexivity.
  - vm_compute. reflexivity.
  - cbv [scenario_midpoint bezierPoint]; vec_eq.
  - vm_compute. reflexivity.
Qed.

(** C8 in binary64 at [t = 0.5], where the weights are finite, and at
    [t = 1e200], where they are not. *)
Lemma bezierPoint_scenario_witness :
  let O := Vector2.new 0%float 0%float in
  finite_weights 0.5%float = true
  /\ PrimFloat.eqb (Vector2.x (bezierPoint 0.5%float O O O O)) 0%float = true
  /\ PrimFloat.eqb (Vector2.y (bezierPoint 0.5%float O O O O)) 0%float = true
  /\ finite_weights 1e200%float = false
  /\ PrimFloat.is_nan (Vector2.x (bezierPoint 1e200%float O O O O)) = true
  /\ PrimFloat.is_nan (Vector2.y (bezierPoint 1e200%float O O O O)) = true.
Proof.
  cbv zeta.
  pose proof (proj1 (proj2 bezierPoint_scenario) 0.5%float) as W.
  pose proof (proj1 (proj2 bezierPoint_scenario) 1e200%float) as V.
  cbv zeta in W, V.
  destruct (proj1 W eq_refl) as [X Y].
  destruct (proj2 V eq_refl) as [Nx Ny].
  split; [ reflexivity | ]. split; [ exact X | ]. split; [ exact Y | ].
  split; [ reflexivity | ]. split; [ exact Nx | exact Ny ].
Defined.

(** C8, as the claim has it, fails: the point at [t = 0.5] is not [(50, 50)],
    its ordinate is [75]. *)
Lemma bezierPoint_scenario_not_50_50 :
  scenario_midpoint (A := R) <> Vector2.new 50 50
  /\ scenario_midpoint (A := float) <> Vector2.new 50%float 50%float.
Proof.
  split; intros E.
  - apply (f_equal Vector2.y) in E.
    cbv [scenario_midpoint bezierPoint] in E; at_R; cbn [Vector2.y] in E. lra.
  - apply (f_equal (fun v => PrimFloat.eqb (Vector2.y v) 50%float)) in E.
    vm_compute in E. discriminate E.
Qed.

(** ** Vectors *)

Lemma sum_squares_nonneg (a b : R) : 0 <= a * a + b * b.
Proof. nra. Qed.

Lemma length_nonneg (v : Vector2 R) : 0 <= Vector2.length v.
Proof. cbv [Vector2.length]; at_R. apply sqrt_pos. Qed.

(** In exact arithmetic a vector that is not of length zero is scaled to
    length one. *)
Lemma length_normalize (v : Vector2 R) :
  Vector2.length v <> 0 -> Vector2.length (Vector2.normalize v) = 1.
Proof.
  destruct v as [a b]. intros Hl.
  cbv [Vector2.normalize].
  assert (E : (Vector2.length (Vector2.new a b) === lit 0)%num = false).
  { at_R. now apply Req_bool_false. }
  rewrite E.
  set (l := Vector2.length (Vector2.new a b)) in *.
  assert (Hsq : l * l = a * a + b * b).
  { subst l. cbv [Vector2.length]; at_R; cbn [Vector2.x Vector2.y].
    apply sqrt_sqrt, sum_squares_nonneg. }
  cbv [Vector2.length]; at_R; cbn [Vector2.x Vector2.y].
  replace (a / l * (a / l) + b / l * (b / l)) with 1.
  - apply sqrt_1.
  - field_simplify_eq; [ lra | exact Hl ].
Qed.

(** C7.  The operations of [Vector2] are functions with a vector or a number
    for every argument, at every instance of the numbers: sum, difference,
    scaling and length are the component formulas, and [normalize] returns the
    zero vector when the length compares equal to zero, dividing nothing, and
    otherwise divides both coordinates by the length, which is then not zero.
    In exact arithmetic the two cases are [length v = 0] and [length v <> 0],
    and the second one yields a vector of length one. *)
Theorem normalize_total :
  (forall (A : Type) (N : Number A) (a b c d k : A),
      Vector2.add (Vector2.new a b) (Vector2.new c d)
      = Vector2.new (a + c)%num (b + d)%num
      /\ Vector2.subtract (Vector2.new a b) (Vector2.new c d)
         = Vector2.new (a - c)%num (b - d)%num
      /\ Vector2.multiply (Vector2.new a b) k
         = Vector2.new (a * k)%num (b * k)%num
      /\ Vector2.length (Vector2.new a b) = nsqrt (a * a + b * b)%num)
  /\ (forall (A : Type) (N : Number A) (v : Vector2 A),
         ((Vector2.length v === lit 0)%num = true ->
          Vector2.normalize v = Vector2.new (lit 0) (lit 0))
         /\ ((Vector2.length v === lit 0)%num = false ->
             Vector2.normalize v =
             Vector2.new (Vector2.x v / Vector2.length v)%num
                         (Vector2.y v / Vector2.length v)%num))
  /\ (forall v : Vector2 R,
         (Vector2.length v = 0 -> Vector2.normalize v = Vector2.new 0 0)
         /\ (Vector2.length v <> 0 ->
             Vector2.normalize v =
             Vector2.new (Vector2.x v / Vector2.length v)
                         (Vector2.y v / Vector2.length v)
             /\ Vector2.length (Vector2.normalize v) = 1)).
Proof.
  split; [ | split ].
  - intros A N a b c d k. repeat split.
  - intros A N v. cbv [Vector2.normalize]. split; intros E; now rewrite E.
  - intros v. split.
    + intros E. cbv [Vector2.normalize].
      replace ((Vector2.length v === lit 0)%num) with true; [ reflexivity | ].
      symmetry. at_R. now apply Req_bool_true.
    + intros E. split; [ | now apply length_normalize ].
      cbv [Vector2.normalize].
      replace ((Vector2.length v === lit 0)%num) with false; [ reflexivity | ].
      symmetry. at_R. now apply Req_bool_false.
Qed.

(** C7 at the zero vector, and at [(3, 4)], of length five. *)
Lemma normalize_total_witness :
  Vector2.normalize (Vector2.new 0 0) = Vector2.new 0 0
  /\ Vector2.length (Vector2.normalize (Vector2.new 3 4)) = 1.
Proof.
  assert (L0 : Vector2.length (Vector2.new 0 0) = 0).
  { cbv [Vector2.length]; at_R; cbn [Vector2.x Vector2.y].
    replace (0 * 0 + 0 * 0) with 0 by ring. apply sqrt_0. }
  assert (L5 : Vector2.length (Vector2.new 3 4) <> 0).
  { cbv [Vector2.length]; at_R; cbn [Vector2.x Vector2.y].
    replace (3 * 3 + 4 * 4) with (5 * 5) by ring.
    rewrite sqrt_square; lra. }
  split.
  - exact (proj1 (proj2 (proj2 normalize_total) (Vector2.new 0 0)) L0).
  - exact (proj2 (proj2 (proj2 (proj2 normalize_total) (Vector2.new 3 4)) L5)).
Defined.

(** In binary64: the zero vector stays the zero vector, [(3, 4)] is divided by
    5, and a division by a zero length, which [normalize] never performs,
    would yield NaN and not an error. *)
Remark normalize_binary64 :
  Vector2.normalize (Vector2.new 0%float 0%float) = Vector2.new 0%float 0%float
  /\ Vector2.normalize (Vector2.new 3%float 4%float)
     = Vector2.new (3 / 5)%float (4 / 5)%float
  /\ PrimFloat.is_nan (0 / 0)%float = true.
Proof. vm_compute. repeat split. Qed.

(** ** Springs *)

Section SpringPointFacts.
Context {A : Type} `{Number A}.
Local Open Scope num_scope.

Lemma update_fixed (deltaTime : A) (this : SpringPoint A) :
  SpringPoint.fixed this = true -> SpringPoint.update deltaTime this = this.
Proof. intros F. cbv [SpringPoint.update]. now rewrite F. Qed.

Lemma target_update (deltaTime : A) (this : SpringPoint A) :
  SpringPoint.target (SpringPoint.update deltaTime this)
  = SpringPoint.target this.
Proof. cbv [SpringPoint.update]. now destruct (SpringPoint.fixed this). Qed.

Lemma fixed_update (deltaTime : A) (this : SpringPoint A) :
  SpringPoint.fixed (SpringPoint.update deltaTime this)
  = SpringPoint.fixed this.
Proof.
  cbv [SpringPoint.update].
  destruct (SpringPoint.fixed this) eqn:F; [ exact F | reflexivity ].
Qed.

Lemma fixed_apply (this : SpringPoint A) (c : SpringPoint.call A) :
  SpringPoint.fixed (SpringPoint.apply this c) = SpringPoint.fixed this.
Proof. destruct c; [ apply fixed_update | reflexivity ]. Qed.

(** A fixed point keeps its position and velocity through every call. *)
Lemma run_fixed (calls : list (SpringPoint.call A)) (this : SpringPoint A) :
  SpringPoint.fixed this = true ->
  SpringPoint.position (SpringPoint.run calls this)
  = SpringPoint.position this
  /\ SpringPoint.velocity (SpringPoint.run calls this)
     = SpringPoint.velocity this.
Proof.
  revert this. induction calls as [ | c calls IH ]; intros this F.
  - now split.
  - change (SpringPoint.run (c :: calls) this)
      with (SpringPoint.run calls (SpringPoint.apply this c)).
    destruct (IH (SpringPoint.apply this c)) as [P V].
    { now rewrite fixed_apply. }
    rewrite P, V. destruct c as [ deltaTime | x y ]; cbn [SpringPoint.apply].
    + now rewrite update_fixed.
    + now split.
Qed.

(** C4.  A point constructed with [fixed = true] has, after any finite
    sequence of [update] and [setTarget] calls with any arguments, the position
    and the velocity of its construction. *)
Theorem fixed_point_invariant (x y : A) (calls : list (SpringPoint.call A)) :
  let this := SpringPoint.new x y true in
  SpringPoint.position (SpringPoint.run calls this) = Vector2.new x y
  /\ SpringPoint.velocity (SpringPoint.run calls this)
     = Vector2.new (lit 0) (lit 0)
  /\ SpringPoint.position (SpringPoint.run calls this)
     = SpringPoint.position this
  /\ SpringPoint.velocity (SpringPoint.run calls this)
     = SpringPoint.velocity this.
Proof.
  cbv zeta.
  destruct (run_fixed calls (SpringPoint.new x y true) eq_refl) as [P V].
  rewrite P, V. now repeat split.
Qed.

End SpringPointFacts.

(** C1.  On a point that is not fixed, one [update(deltaTime)] computes the
    displacement from the target, the spring force [-springConstant] times
    it, the damping force [-damping] times the velocity and their sum, the
    acceleration; the velocity becomes the old velocity plus the acceleration
    times [deltaTime], and the position becomes the old position plus the NEW
    velocity times [deltaTime].  Target, flag and parameters are kept.  This
    holds at every instance of the numbers.  In exact arithmetic the new
    position is therefore the old one plus the old velocity times [deltaTime]
    plus the acceleration times [deltaTime] squared, the term by which the
    step differs from the explicit Euler step. *)
Theorem update_semi_implicit_euler :
  (forall (A : Type) (N : Number A) (deltaTime : A) (this : SpringPoint A),
      SpringPoint.fixed this = false ->
      let displacement :=
        Vector2.subtract (SpringPoint.position this)
                         (SpringPoint.target this) in
      let springForce :=
        Vector2.multiply displacement (- SpringPoint.springConstant this)%num in
      let dampingForce :=
        Vector2.multiply (SpringPoint.velocity this)
                         (- SpringPoint.damping this)%num in
      let acceleration := Vector2.add springForce dampingForce in
      let this' := SpringPoint.update deltaTime this in
      SpringPoint.velocity this'
      = Vector2.add (SpringPoint.velocity this)
                    (Vector2.multiply acceleration deltaTime)
      /\ SpringPoint.position this'
         = Vector2.add (SpringPoint.position this)
                       (Vector2.multiply (SpringPoint.velocity this')
                                         deltaTime)
      /\ SpringPoint.target this' = SpringPoint.target this
      /\ SpringPoint.fixed this' = false
      /\ SpringPoint.springConstant this' = SpringPoint.springConstant this
      /\ SpringPoint.damping this' = SpringPoint.damping this)
  /\ (forall (deltaTime : R) (this : SpringPoint R),
         SpringPoint.fixed this = false ->
         let acceleration :=
           Vector2.add
             (Vector2.multiply
                (Vector2.subtract (SpringPoint.position this)
                                  (SpringPoint.target this))
                (- SpringPoint.springConstant this))
             (Vector2.multiply (SpringPoint.velocity this)
                               (- SpringPoint.damping this)) in
         SpringPoint.position (SpringPoint.update deltaTime this)
         = Vector2.add
             (Vector2.add (SpringPoint.position this)
                          (Vector2.multiply (SpringPoint.velocity this)
                                            deltaTime))
             (Vector2.multiply acceleration (deltaTime * deltaTime))).
Proof.
  split.
  - intros A N deltaTime this F. cbv zeta. cbv [SpringPoint.update]. rewrite F.
    cbn [SpringPoint.velocity SpringPoint.position SpringPoint.target
         SpringPoint.fixed SpringPoint.springConstant SpringPoint.damping].
    repeat split.
  - intros deltaTime [[px py] [vx vy] [tx ty] fx k d] F. cbv zeta.
    cbn [SpringPoint.fixed] in F. subst fx.
    cbv [SpringPoint.update]; fields. vec_eq.
Qed.

(** C1 on the point [new SpringPoint(10, 20)] retargeted to [(0, 0)], with
    [deltaTime = 2], in exact arithmetic: the velocity becomes [(-3, -6)] and
    the position [(4, 8)], the old position moved by twice the new velocity
    (twice the old one, zero, would leave it at [(10, 20)]). *)
Lemma update_semi_implicit_euler_witness :
  let this := SpringPoint.setTarget 0 0 (SpringPoint.new 10 20 false) in
  let this' := SpringPoint.update 2 this in
  SpringPoint.fixed this = false
  /\ SpringPoint.velocity this'
     = Vector2.add (SpringPoint.velocity this)
         (Vector2.multiply
            (Vector2.add
               (Vector2.multiply
                  (Vector2.subtract (SpringPoint.position this)
                                    (SpringPoint.target this))
                  (- SpringPoint.springConstant this))
               (Vector2.multiply (SpringPoint.velocity this)
                                 (- SpringPoint.damping this)))
            2)
  /\ SpringPoint.position this'
     = Vector2.add (SpringPoint.position this)
                   (Vector2.multiply (SpringPoint.velocity this') 2)
  /\ SpringPoint.velocity this' = Vector2.new (-3) (-6)
  /\ SpringPoint.position this' = Vector2.new 4 8.
Proof.
  cbv zeta. split; [ reflexivity | ].
  pose proof (proj1 update_semi_implicit_euler R Number_R 2
                (SpringPoint.setTarget 0 0 (SpringPoint.new 10 20 false))
                eq_refl) as W.
  cbv zeta in W. destruct W as [V [P _]].
  split; [ exact V | ]. split; [ exact P | ].
  split; [ rewrite V | rewrite P, V ];
    cbv [SpringPoint.setTarget SpringPoint.new]; fields; vec_eq.
Defined.

(** ** The loop *)

Lemma length_call_at {T : Type} (i : nat) (m : T -> T) (l : list T) :
  length (call_at i m l) = length l.
Proof.
  revert i. induction l as [ | a l IH ]; intros [ | i ]; cbn; auto.
Qed.

Lemma four_points {T : Type} (l : list T) :
  length l = 4%nat -> exists P0 P1 P2 P3, l = [P0; P1; P2; P3].
Proof.
  destruct l as [ | P0 [ | P1 [ | P2 [ | P3 [ | P4 l ] ] ] ] ]; try discriminate.
  intros _. now exists P0, P1, P2, P3.
Qed.

Section LoopFacts.
Context {A : Type} `{Number A}.
Local Open Scope num_scope.

Lemma length_applyInput (s : Sim A) :
  length (applyInput s) = length (points s).
Proof.
  cbv [applyInput].
  destruct (mode s); [ | destruct (gyroActive s) ];
    now rewrite ?length_call_at.
Qed.

Lemma length_points_updatePhysics (currentTime : A) (s : Sim A) :
  length (points (updatePhysics currentTime s)) = length (points s).
Proof.
  cbv [updatePhysics]; cbn [points].
  now rewrite length_map, length_applyInput.
Qed.

(** Every point of the rig is advanced with the step [deltaTime_of] yields. *)
Lemma points_updatePhysics (currentTime : A) (s : Sim A) :
  points (updatePhysics currentTime s)
  = map (SpringPoint.update (deltaTime_of currentTime (lastTime s)))
        (applyInput s).
Proof. reflexivity. Qed.

(** A frame on a rig of four points: the targets of the inner two are the
    assigned ones when the frame has offsets, and the old ones when not; the
    targets of the outer two are never touched. *)
Lemma targets_updatePhysics (currentTime : A) (s : Sim A)
      (P0 P1 P2 P3 : SpringPoint A) :
  points s = [P0; P1; P2; P3] ->
  exists Q0 Q1 Q2 Q3,
    points (updatePhysics currentTime s) = [Q0; Q1; Q2; Q3]
    /\ SpringPoint.target Q0 = SpringPoint.target P0
    /\ SpringPoint.target Q3 = SpringPoint.target P3
    /\ match offsets s with
       | Some (offsetX, offsetY) =>
           (SpringPoint.target Q1, SpringPoint.target Q2)
           = assigned s offsetX offsetY
       | None =>
           SpringPoint.target Q1 = SpringPoint.target P1
           /\ SpringPoint.target Q2 = SpringPoint.target P2
       end.
Proof.
  intros E. rewrite points_updatePhysics.
  cbv [applyInput offsets assigned]. rewrite E.
  destruct (mode s); [ | destruct (gyroActive s) ]; cbn [call_at map];
    do 4 eexists; (split; [ reflexivity | ]);
    rewrite !target_update; cbn [SpringPoint.setTarget SpringPoint.target];
    repeat split.
Qed.

Lemma length_points_effect (pf : Platform) (m : Mode) (fps0 : A)
      (r : Readings A) :
  length (points (effect pf m fps0 r)) = 4%nat.
Proof. cbv [effect]. now rewrite length_points_updatePhysics. Qed.

Lemma length_points_step (pf : Platform) (s : Sim A) (ev : Event A) :
  length (points s) = 4%nat -> length (points (step pf s ev)) = 4%nat.
Proof.
  intros L. destruct ev; cbn [step].
  - now rewrite length_points_updatePhysics.
  - exact L.
  - now destruct (orientationListener s).
  - exact L.
  - cbv [setMode]. destruct (Mode_eqb m (mode s));
      [ exact L | apply length_points_effect ].
  - apply length_points_effect.
Qed.

(** The rig has four points for as long as the component is mounted. *)
Lemma length_points_run (pf : Platform) (evs : list (Event A)) (s : Sim A) :
  length (points s) = 4%nat -> length (points (run pf evs s)) = 4%nat.
Proof.
  revert s. induction evs as [ | ev evs IH ]; intros s L; [ exact L | ].
  change (run pf (ev :: evs) s) with (run pf evs (step pf s ev)).
  now apply IH, length_points_step.
Qed.

End LoopFacts.

(** Between two frames the time of the last frame is kept: no input event
    touches [lastTime]. *)
Lemma lastTime_inputs {A : Type} `{Number A} (pf : Platform)
      (evs : list (Event A)) (s : Sim A) :
  forallb input_event evs = true -> lastTime (run pf evs s) = lastTime s.
Proof.
  revert s. induction evs as [ | ev evs IH ]; intros s I; [ reflexivity | ].
  cbn [forallb] in I. apply andb_prop in I. destruct I as [Iev I].
  change (run pf (ev :: evs) s) with (run pf evs (step pf s ev)).
  rewrite (IH _ I).
  destruct ev; cbn [input_event] in Iev; try discriminate Iev;
    cbn [step]; try reflexivity.
  now destruct (orientationListener s).
Qed.

(** C5.  The step the loop hands to [SpringPoint.update] for each point is
    the time elapsed since the previous frame divided by 16.67, capped above
    at 2.  A frame records its time stamp in [lastTime], the input events
    that come before the next frame leave it there, and the next frame
    computes its step from it: for two consecutive frames at [previous] and
    [currentTime], whatever the state and the inputs between them, the step
    is [Math.min((currentTime - previous) / 16.67, 2)]; the first frame of a
    run of the effect measures from the time the effect read.  This holds at
    every instance of the numbers.  In exact arithmetic the step is the
    quotient when that is at most 2 and is 2 when not; after ten nominal
    frames it is 2 (in exact arithmetic from any time stamp, and in binary64
    from the time stamps 0 and 1000). *)
Theorem deltaTime_capped :
  (forall (A : Type) (N : Number A) (pf : Platform) (s : Sim A)
          (previous currentTime : A) (evs : list (Event A)),
      forallb input_event evs = true ->
      let s' := run pf evs (updatePhysics previous s) in
      lastTime s' = previous
      /\ points (updatePhysics currentTime s')
         = map (SpringPoint.update
                  (nmin ((currentTime - previous) / dec 1667 100) (lit 2))%num)
               (applyInput s'))
  /\ (forall (A : Type) (N : Number A) (pf : Platform) (m : Mode) (fps0 : A)
             (r : Readings A),
         points (effect pf m fps0 r)
         = map (SpringPoint.update
                  (nmin ((now_first r - now_lastTime r) / dec 1667 100)
                        (lit 2))%num)
               (applyInput (setup pf m fps0 r))
         /\ lastTime (effect pf m fps0 r) = now_first r)
  /\ (forall (currentTime : R) (s : Sim R),
         points (updatePhysics currentTime s)
         = map (SpringPoint.update
                  (Rmin ((currentTime - lastTime s) / (1667 / 100)) 2))
               (applyInput s))
  /\ (forall currentTime last : R,
         deltaTime_of currentTime last <= 2
         /\ ((currentTime - last) / (1667 / 100) <= 2 ->
             deltaTime_of currentTime last
             = (currentTime - last) / (1667 / 100))
         /\ (2 <= (currentTime - last) / (1667 / 100) ->
             deltaTime_of currentTime last = 2))
  /\ (forall last : R, deltaTime_of (last + 10 * (1667 / 100)) last = 2)
  /\ deltaTime_of (A := float) (lit 10 * dec 1667 100)%num (lit 0) = 2%float
  /\ deltaTime_of (A := float) (lit 1000 + lit 10 * dec 1667 100)%num
                  (lit 1000) = 2%float.
Proof.
  split; [ | split; [ | split; [ | split; [ | split; [ | split ] ] ] ] ].
  - intros A N pf s previous currentTime evs I. cbv zeta.
    assert (L : lastTime (run pf evs (updatePhysics previous s)) = previous).
    { now rewrite (lastTime_inputs pf evs _ I). }
    split; [ exact L | ].
    rewrite points_updatePhysics, L. reflexivity.
  - intros A N pf m fps0 r. split; reflexivity.
  - intros currentTime s. rewrite points_updatePhysics. reflexivity.
  - intros currentTime last. cbv [deltaTime_of]; at_R.
    repeat split.
    + apply Rmin_r.
    + intros L. now apply Rmin_left.
    + intros L. now apply Rmin_right.
  - intros last. cbv [deltaTime_of]; at_R.
    apply Rmin_right.
    replace ((last + 10 * (1667 / 100) - last) / (1667 / 100)) with 10
      by (field; lra).
    lra.
  - vm_compute. reflexivity.
  - vm_compute. reflexivity.
Qed.

(** C5 in binary64, on the mounted component of the sessions: a frame at
    16 ms, a mouse move, and frames at 30 ms and at 200 ms; the steps are
    [(30 - 16) / 16.67] and 2.  And in exact arithmetic at the time stamps 0
    and 166.7, ten frames, and 0 and 16.67, one. *)
Lemma deltaTime_capped_witness :
  (let s' := run open_platform
                 [ MouseMove 900 400 0 0 ]%float
                 (updatePhysics 16%float
                    (effect open_platform mouse 60%float (demo_readings 0))) in
   forallb input_event [ MouseMove 900 400 0 0 ]%float = true
   /\ lastTime s' = 16%float
   /\ points (updatePhysics 30%float s')
      = map (SpringPoint.update (14 / 16.67)%float) (applyInput s')
   /\ points (updatePhysics 200%float s')
      = map (SpringPoint.update 2%float) (applyInput s'))
  /\ deltaTime_of (1667 / 10) 0 = 2 /\ deltaTime_of (1667 / 100) 0 = 1.
Proof.
  assert (L : 2 <= (1667 / 10 - 0) / (1667 / 100)).
  { replace ((1667 / 10 - 0) / (1667 / 100)) with 10 by (field; lra). lra. }
  assert (E : (1667 / 100 - 0) / (1667 / 100) = 1) by (field; lra).
  assert (U : (1667 / 100 - 0) / (1667 / 100) <= 2) by lra.
  split; [ | split ].
  - cbv zeta. split; [ reflexivity | ].
    pose proof (proj1 deltaTime_capped float Number_float open_platform
                  (effect open_platform mouse 60%float (demo_readings 0))
                  16%float 30%float [ MouseMove 900 400 0 0 ]%float eq_refl)
      as W30.
    pose proof (proj1 deltaTime_capped float Number_float open_platform
                  (effect open_platform mouse 60%float (demo_readings 0))
                  16%float 200%float [ MouseMove 900 400 0 0 ]%float eq_refl)
      as W200.
    cbv zeta in W30, W200.
    split; [ exact (proj1 W30) | ].
    split; [ exact (proj2 W30) | exact (proj2 W200) ].
  - exact (proj2 (proj2 (proj1 (proj2 (proj2 (proj2 deltaTime_capped)))
                           (1667 / 10) 0)) L).
  - pose proof (proj1 (proj2 (proj1 (proj2 (proj2 (proj2 deltaTime_capped)))
                                (1667 / 100) 0)) U) as W.
    rewrite E in W. exact W.
Defined.

(** C10, as the code has it.  In a mounted component, a frame that assigns
    targets (mouse mode, or gyro mode once an orientation sample has arrived)
    computes them from one pair of offsets: the target of P1 is
    [(0.4 w + offsetX, 0.3 h + offsetY)] and the target of P2 is
    [(0.6 w - offsetX, 0.7 h - offsetY)], whatever the input sample and the
    canvas size; this holds at every instance of the numbers.  In exact
    arithmetic the two targets are therefore reflections of each other
    through the centre of the canvas: their sum is [(width, height)]. *)
Theorem assigned_targets_mirror :
  (forall (A : Type) (N : Number A) (pf : Platform) (m : Mode) (fps0 : A)
          (r : Readings A) (evs : list (Event A)) (currentTime : A),
      let s := run pf evs (effect pf m fps0 r) in
      mode s = mouse \/ (mode s = gyro /\ gyroActive s = true) ->
      exists offsetX offsetY P0 P1 P2 P3,
        offsets s = Some (offsetX, offsetY)
        /\ points (updatePhysics currentTime s) = [P0; P1; P2; P3]
        /\ SpringPoint.target P1
           = Vector2.new (width s * dec 4 10 + offsetX)%num
                         (height s * dec 3 10 + offsetY)%num
        /\ SpringPoint.target P2
           = Vector2.new (width s * dec 6 10 - offsetX)%num
                         (height s * dec 7 10 - offsetY)%num)
  /\ (forall (pf : Platform) (m : Mode) (fps0 : R) (r : Readings R)
             (evs : list (Event R)) (currentTime : R),
         let s := run pf evs (effect pf m fps0 r) in
         mode s = mouse \/ (mode s = gyro /\ gyroActive s = true) ->
         exists P0 P1 P2 P3,
           points (updatePhysics currentTime s) = [P0; P1; P2; P3]
           /\ Vector2.add (SpringPoint.target P1) (SpringPoint.target P2)
              = Vector2.new (width s) (height s)).
Proof.
  assert (G : forall (A : Type) (N : Number A) (pf : Platform) (m : Mode)
                     (fps0 : A) (r : Readings A) (evs : list (Event A))
                     (currentTime : A),
             let s := run pf evs (effect pf m fps0 r) in
             mode s = mouse \/ (mode s = gyro /\ gyroActive s = true) ->
             exists offsetX offsetY P0 P1 P2 P3,
               offsets s = Some (offsetX, offsetY)
               /\ points (updatePhysics currentTime s) = [P0; P1; P2; P3]
               /\ (SpringPoint.target P1, SpringPoint.target P2)
                  = assigned s offsetX offsetY).
  { intros A N pf m fps0 r evs currentTime. cbv zeta.
    set (s := run pf evs (effect pf m fps0 r)). intros Hm.
    destruct (four_points (points s)) as (P0 & P1 & P2 & P3 & E).
    { apply length_points_run, length_points_effect. }
    destruct (targets_updatePhysics currentTime s E)
      as (Q0 & Q1 & Q2 & Q3 & EQ & _ & _ & T).
    assert (O : exists offsetX offsetY, offsets s = Some (offsetX, offsetY)).
    { cbv [offsets]. destruct Hm as [ -> | [ -> -> ] ]; eauto. }
    destruct O as (offsetX & offsetY & O). rewrite O in T.
    exists offsetX, offsetY, Q0, Q1, Q2, Q3. now repeat split. }
  split.
  - intros A N pf m fps0 r evs currentTime. cbv zeta. intros Hm.
    destruct (G A N pf m fps0 r evs currentTime Hm)
      as (offsetX & offsetY & P0 & P1 & P2 & P3 & O & E & T).
    exists offsetX, offsetY, P0, P1, P2, P3.
    cbv [assigned] in T. injection T as T1 T2. now repeat split.
  - intros pf m fps0 r evs currentTime. cbv zeta. intros Hm.
    destruct (G R Number_R pf m fps0 r evs currentTime Hm)
      as (offsetX & offsetY & P0 & P1 & P2 & P3 & O & E & T).
    exists P0, P1, P2, P3. split; [ exact E | ].
    cbv [assigned] in T. injection T as -> ->.
    vec_eq.
Qed.

(** C10 on the sessions above, in exact arithmetic: the frame at 32 ms after
    the mouse moved to [(900, 400)], and the frame at 48 ms after the device
    reported a tilt.  And in binary64 on the first: the offsets are
    [(120, 45)] and the targets [(520, 195)] and [(480, 305)]. *)
Lemma assigned_targets_mirror_witness :
  (mode (pointer_session (A := R)) = mouse
   /\ exists P0 P1 P2 P3,
       points (updatePhysics 32 (pointer_session (A := R))) = [P0; P1; P2; P3]
       /\ Vector2.add (SpringPoint.target P1) (SpringPoint.target P2)
          = Vector2.new (width (pointer_session (A := R)))
                        (height (pointer_session (A := R))))
  /\ (mode (tilted_session (A := R)) = gyro
      /\ gyroActive (tilted_session (A := R)) = true
      /\ exists P0 P1 P2 P3,
          points (updatePhysics 48 (tilted_session (A := R)))
          = [P0; P1; P2; P3]
          /\ Vector2.add (SpringPoint.target P1) (SpringPoint.target P2)
             = Vector2.new (width (tilted_session (A := R)))
                           (height (tilted_session (A := R))))
  /\ (mode (pointer_session (A := float)) = mouse
      /\ exists P0 P1 P2 P3,
          points (updatePhysics 32%float (pointer_session (A := float)))
          = [P0; P1; P2; P3]
          /\ SpringPoint.target P1 = Vector2.new 520%float 195%float
          /\ SpringPoint.target P2 = Vector2.new 480%float 305%float).
Proof.
  split; [ | split ].
  - split; [ reflexivity | ].
    exact (proj2 assigned_targets_mirror gated_platform mouse 60
             (demo_readings 0) pointer_events 32 (or_introl eq_refl)).
  - split; [ reflexivity | ]. split; [ reflexivity | ].
    exact (proj2 assigned_targets_mirror open_platform mouse 60
             (demo_readings 0) tilt_events 48
             (or_intror (conj eq_refl eq_refl))).
  - split; [ reflexivity | ].
    destruct (proj1 assigned_targets_mirror float Number_float gated_platform
                mouse 60%float (demo_readings 0) pointer_events 32%float
                (or_introl eq_refl))
      as (offsetX & offsetY & P0 & P1 & P2 & P3 & O & E & T1 & T2).
    exists P0, P1, P2, P3. split; [ exact E | ].
    vm_compute in O. injection O as <- <-.
    split; [ rewrite T1 | rewrite T2 ]; vm_compute; reflexivity.
Defined.

(** C10, as the claim has it, fails of the script, which computes in
    binary64: each target is rounded, and so is their sum.  On a canvas 433
    wide and 768 high with the mouse at [(13, 1)] the frame assigns targets
    in mouse mode whose abscissas add up to the double after 433 and whose
    ordinates add up to the double before 768, not to [(433, 768)]; in exact
    arithmetic the same session gives [(433, 768)]. *)
Lemma mirror_binary64_rounding :
  inner_targets_sum (narrow_session (A := R)) = Some (Vector2.new 433 768)
  /\ mode (narrow_session (A := float)) = mouse
  /\ width (narrow_session (A := float)) = 433%float
  /\ height (narrow_session (A := float)) = 768%float
  /\ inner_targets_sum (narrow_session (A := float))
     = Some (Vector2.new (PrimFloat.next_up 433%float)
                         (PrimFloat.next_down 768%float))
  /\ inner_targets_sum (narrow_session (A := float))
     <> Some (Vector2.new (width (narrow_session (A := float)))
                          (height (narrow_session (A := float)))).
Proof.
  split; [ | split; [ | split; [ | split; [ | split ] ] ] ].
  - cbv [inner_targets_sum inner_targets narrow_session]. cbn.
    f_equal. vec_eq.
  - reflexivity.
  - vm_compute. reflexivity.
  - vm_compute. reflexivity.
  - vm_compute. reflexivity.
  - intros E.
    apply (f_equal (fun o => match o with
                             | Some v => PrimFloat.eqb (Vector2.x v) 433%float
                             | None => true
                             end)) in E.
    vm_compute in E. discriminate E.
Qed.

(** ** Switching the input mode *)

Section ModeSwitch.
Context {A : Type} `{Number A}.
Local Open Scope num_scope.

Lemma mode_step (pf : Platform) (s : Sim A) (ev : Event A) :
  reruns_effect ev = false -> mode (step pf s ev) = mode s.
Proof.
  destruct ev; cbn [reruns_effect step]; try discriminate; intros _;
    try reflexivity.
  now destruct (orientationListener s).
Qed.

(** Within one run of the effect, [gyroActive] is never reset. *)
Lemma gyroActive_step (pf : Platform) (s : Sim A) (ev : Event A) :
  reruns_effect ev = false ->
  gyroActive s = true -> gyroActive (step pf s ev) = true.
Proof.
  destruct ev; cbn [reruns_effect step]; try discriminate; intros _ G;
    try exact G.
  now destruct (orientationListener s).
Qed.

Lemma gyroActive_run (pf : Platform) (evs : list (Event A)) (s : Sim A) :
  forallb (fun ev => negb (reruns_effect ev)) evs = true ->
  gyroActive s = true -> gyroActive (run pf evs s) = true.
Proof.
  revert s. induction evs as [ | ev evs IH ]; intros s N G; [ exact G | ].
  cbn [forallb] in N. apply andb_prop in N. destruct N as [N1 N2].
  apply negb_true_iff in N1.
  change (run pf (ev :: evs) s) with (run pf evs (step pf s ev)).
  now apply IH, gyroActive_step.
Qed.

Lemma inner_targets_four (s : Sim A) (t1 t2 : Vector2 A) :
  inner_targets s = Some (t1, t2) ->
  exists P0 P1 P2 P3,
    points s = [P0; P1; P2; P3]
    /\ SpringPoint.target P1 = t1 /\ SpringPoint.target P2 = t2.
Proof.
  cbv [inner_targets].
  destruct (points s) as [ | P0 [ | P1 [ | P2 [ | P3 [ | P4 l ] ] ] ] ];
    try discriminate.
  intros E. injection E as <- <-. now exists P0, P1, P2, P3.
Qed.

(** A frame that has no offsets keeps the inner targets. *)
Lemma inner_targets_idle_frame (currentTime : A) (s : Sim A)
      (t1 t2 : Vector2 A) :
  offsets s = None -> inner_targets s = Some (t1, t2) ->
  inner_targets (updatePhysics currentTime s) = Some (t1, t2).
Proof.
  intros O I.
  destruct (inner_targets_four s I) as (P0 & P1 & P2 & P3 & E & <- & <-).
  destruct (targets_updatePhysics currentTime s E)
    as (Q0 & Q1 & Q2 & Q3 & EQ & _ & _ & T).
  rewrite O in T. destruct T as [T1 T2].
  cbv [inner_targets]. now rewrite EQ, T1, T2.
Qed.

(** The rig a run of the effect in [gyro] mode starts with. *)
Lemma rest_targets_effect (pf : Platform) (fps0 : A) (r : Readings A) :
  rest_targets r (effect pf gyro fps0 r)
  /\ mode (effect pf gyro fps0 r) = gyro
  /\ gyroActive (effect pf gyro fps0 r) = false.
Proof.
  split; [ | split; reflexivity ].
  cbv [rest_targets effect].
  now apply inner_targets_idle_frame.
Qed.

(** In [gyro] mode with no sample, no event of the run reassigns the inner
    targets. *)
Lemma rest_targets_step (pf : Platform) (r : Readings A) (s : Sim A)
      (ev : Event A) :
  reruns_effect ev = false -> mode s = gyro -> gyroActive s = false ->
  rest_targets r s -> rest_targets r (step pf s ev).
Proof.
  cbv [rest_targets]. intros N M G T.
  destruct ev; cbn [reruns_effect step] in *; try discriminate; try exact T.
  - apply inner_targets_idle_frame; [ | exact T ].
    cbv [offsets]. now rewrite M, G.
  - now destruct (orientationListener s).
Qed.

Lemma rest_targets_run (pf : Platform) (r : Readings A)
      (evs : list (Event A)) (s : Sim A) :
  forallb (fun ev => negb (reruns_effect ev)) evs = true ->
  mode s = gyro -> rest_targets r s ->
  gyroActive (run pf evs s) = false ->
  rest_targets r (run pf evs s) /\ mode (run pf evs s) = gyro.
Proof.
  revert s. induction evs as [ | ev evs IH ]; intros s N M T G;
    [ now split | ].
  cbn [forallb] in N. apply andb_prop in N. destruct N as [N1 N2].
  apply negb_true_iff in N1.
  change (run pf (ev :: evs) s) with (run pf evs (step pf s ev)) in *.
  assert (G0 : gyroActive s = false).
  { destruct (gyroActive s) eqn:G0; [ | reflexivity ].
    rewrite (gyroActive_run pf evs (step pf s ev) N2) in G;
      [ discriminate | now apply gyroActive_step ]. }
  apply IH; auto.
  - now rewrite mode_step.
  - now apply rest_targets_step.
Qed.

(** In [gyro] mode with no sample a frame calls no [setTarget]. *)
Lemma applyInput_idle (s : Sim A) :
  mode s = gyro -> gyroActive s = false -> applyInput s = points s.
Proof. intros M G. cbv [applyInput]. now rewrite M, G. Qed.

Lemma targets_map_update (deltaTime : A) (l : list (SpringPoint A)) :
  map SpringPoint.target (map (SpringPoint.update deltaTime) l)
  = map SpringPoint.target l.
Proof.
  induction l as [ | P l IH ]; [ reflexivity | ].
  cbn [map]. now rewrite target_update, IH.
Qed.

(** C6, as the code has it.  In [gyro] mode, for as long as no orientation
    sample has arrived, a frame reassigns no target.  But switching from
    [mouse] to [gyro] runs the effect again and builds a new rig: in that run,
    whatever frames, mouse moves and resizes occur before a sample arrives,
    the targets of P1 and P2 are the targets the constructor gave them,
    [(0.4 w, 0.3 h)] and [(0.6 w, 0.7 h)] for the canvas size [w], [h] read at
    the switch, and not the last targets the pointer gave. *)
Theorem gyro_without_sample :
  (forall (currentTime : A) (s : Sim A),
      mode s = gyro -> gyroActive s = false ->
      map SpringPoint.target (points (updatePhysics currentTime s))
      = map SpringPoint.target (points s))
  /\ (forall (pf : Platform) (r : Readings A) (s : Sim A)
             (evs : list (Event A)),
         mode s = mouse ->
         forallb (fun ev => negb (reruns_effect ev)) evs = true ->
         let s' := run pf evs (setMode pf gyro r s) in
         gyroActive s' = false ->
         mode s' = gyro
         /\ exists P0 P1 P2 P3,
             points s' = [P0; P1; P2; P3]
             /\ SpringPoint.target P1
                = Vector2.new (offsetWidth r * dec 4 10)
                              (offsetHeight r * dec 3 10)
             /\ SpringPoint.target P2
                = Vector2.new (offsetWidth r * dec 6 10)
                              (offsetHeight r * dec 7 10)).
Proof.
  split.
  - intros currentTime s M G.
    rewrite points_updatePhysics, targets_map_update.
    now rewrite applyInput_idle.
  - intros pf r s evs M N. cbv zeta. intros G.
    assert (E : setMode pf gyro r s = effect pf gyro (fps s) r).
    { cbv [setMode]. now rewrite M. }
    rewrite E in *.
    destruct (rest_targets_effect pf (fps s) r) as (T & M' & _).
    destruct (@rest_targets_run pf r evs _ N M' T G) as [T' M''].
    split; [ exact M'' | now apply inner_targets_four ].
Qed.

End ModeSwitch.

(** C6 on the session above: after the switch, a frame, a mouse move, a resize
    and another frame, with no orientation event; and the frame at 64 ms on
    the switched session. *)
Lemma gyro_without_sample_witness :
  let evs := [ AnimationFrame 48; MouseMove 100 100 0 0;
               WindowResize 800 600; AnimationFrame 64 ] in
  let s' := run gated_platform evs
                (setMode gated_platform gyro (demo_readings 32)
                         (pointer_session (A := R))) in
  (mode (pointer_session (A := R)) = mouse
   /\ forallb (fun ev => negb (reruns_effect ev)) evs = true
   /\ gyroActive s' = false
   /\ mode s' = gyro
   /\ exists P0 P1 P2 P3,
       points s' = [P0; P1; P2; P3]
       /\ SpringPoint.target P1
          = Vector2.new (1000 * (4 / 10)) (500 * (3 / 10))
       /\ SpringPoint.target P2
          = Vector2.new (1000 * (6 / 10)) (500 * (7 / 10)))
  /\ (mode (switched_session (A := R)) = gyro
      /\ gyroActive (switched_session (A := R)) = false
      /\ map SpringPoint.target
             (points (updatePhysics 64 (switched_session (A := R))))
         = map SpringPoint.target (points (switched_session (A := R)))).
Proof.
  cbv zeta. split.
  - split; [ reflexivity | ]. split; [ reflexivity | ].
    split; [ reflexivity | ].
    exact (proj2 gyro_without_sample gated_platform (demo_readings 32)
             (pointer_session (A := R))
             [ AnimationFrame 48; MouseMove 100 100 0 0;
               WindowResize 800 600; AnimationFrame 64 ]
             eq_refl eq_refl eq_refl).
  - split; [ reflexivity | ]. split; [ reflexivity | ].
    exact (proj1 gyro_without_sample 64 (switched_session (A := R))
             eq_refl eq_refl).
Defined.

(** C6, as the claim has it, fails.  In the session above the frame before the
    switch assigned P1 and P2 the targets [(520, 195)] and [(480, 305)]; after
    the switch, with no orientation sample received, they are [(400, 150)]
    and [(600, 350)], in exact arithmetic, and in binary64 they differ as
    well. *)
Lemma mode_switch_discards_pointer_targets :
  gyroActive (switched_session (A := R)) = false
  /\ inner_targets (pointer_session (A := R))
     = Some (Vector2.new 520 195, Vector2.new 480 305)
  /\ inner_targets (switched_session (A := R))
     = Some (Vector2.new 400 150, Vector2.new 600 350)
  /\ inner_targets (switched_session (A := R))
     <> inner_targets (pointer_session (A := R))
  /\ gyroActive (switched_session (A := float)) = false
  /\ inner_targets (switched_session (A := float))
     <> inner_targets (pointer_session (A := float)).
Proof.
  assert (EP : inner_targets (pointer_session (A := R))
               = Some (Vector2.new 520 195, Vector2.new 480 305)).
  { cbv [inner_targets pointer_session pointer_events]. cbn.
    repeat f_equal; field. }
  assert (ES : inner_targets (switched_session (A := R))
               = Some (Vector2.new 400 150, Vector2.new 600 350)).
  { cbv [inner_targets switched_session pointer_session pointer_events]. cbn.
    repeat f_equal; field. }
  split; [ reflexivity | ].
  split; [ exact EP | ]. split; [ exact ES | ].
  split; [ | split ].
  - rewrite EP, ES. intros E. injection E as E _ _ _. lra.
  - vm_compute. reflexivity.
  - intros E.
    apply (f_equal (fun o => match o with
                             | Some (t1, _) =>
                                 PrimFloat.eqb (Vector2.x t1) 400%float
                             | None => false
                             end)) in E.
    vm_compute in E. discriminate E.
Qed.

(** ** Convergence of a spring *)

Lemma scaled_released (p T : Vector2 R) : scaled p T 1 0 (released p T).
Proof.
  destruct p as [px py], T as [tx ty].
  cbv [scaled released SpringPoint.setTarget SpringPoint.new]; at_R; fields.
  repeat split; f_equal; ring.
Qed.

(** One [update(1)] on the two scales. *)
Lemma scaled_update (p T : Vector2 R) (c w : R) (this : SpringPoint R) :
  scaled p T c w this ->
  scaled p T (85 / 100 * c + 15 / 100 * w) (15 / 100 * w - 15 / 100 * c)
         (SpringPoint.update 1 this).
Proof.
  destruct p as [px py], T as [tx ty], this as [pos vel tgt fx k d].
  cbv [scaled]; fields.
  intros (-> & -> & -> & -> & -> & ->).
  cbv [SpringPoint.update Vector2.add Vector2.subtract Vector2.multiply];
    at_R; fields.
  repeat split; f_equal; field.
Qed.

Lemma sqrt_scaled (c a b : R) :
  0 <= c ->
  sqrt (c * a * (c * a) + c * b * (c * b)) = c * sqrt (a * a + b * b).
Proof.
  intros Hc.
  replace (c * a * (c * a) + c * b * (c * b)) with (c * c * (a * a + b * b))
    by ring.
  rewrite sqrt_mult_alt by nra.
  now rewrite sqrt_square.
Qed.

Lemma distance_scaled (p T : Vector2 R) (c w : R) (this : SpringPoint R) :
  0 <= c -> scaled p T c w this ->
  distance this = c * Vector2.length (Vector2.subtract p T).
Proof.
  intros Hc (P & _ & Tg & _).
  destruct p as [px py], T as [tx ty].
  cbv [distance]. rewrite P, Tg.
  cbv [Vector2.length Vector2.subtract]; at_R; cbn [Vector2.x Vector2.y].
  rewrite <- sqrt_scaled by exact Hc.
  f_equal. ring.
Qed.

(** In the cone one step multiplies [c] by a factor between 0.7 and 0.85, and
    stays in the cone. *)
Lemma in_cone_step (c w : R) :
  in_cone c w ->
  in_cone (85 / 100 * c + 15 / 100 * w) (15 / 100 * w - 15 / 100 * c)
  /\ 7 / 10 * c <= 85 / 100 * c + 15 / 100 * w <= 85 / 100 * c.
Proof. cbv [in_cone]. intros (Hc & Hl & Hu). repeat split; lra. Qed.

(** After [n] steps: the scales, in the cone, with [c] between [0.7 ^ n] and
    [0.85 ^ n]. *)
Lemma scaled_after (p T : Vector2 R) (n : nat) :
  exists c w,
    scaled p T c w (after n (released p T))
    /\ in_cone c w
    /\ (7 / 10) ^ n <= c <= (85 / 100) ^ n.
Proof.
  induction n as [ | n (c & w & Sc & C & B) ].
  - exists 1, 0. split; [ apply scaled_released | ].
    cbv [in_cone]; cbn [pow]. lra.
  - exists (85 / 100 * c + 15 / 100 * w), (15 / 100 * w - 15 / 100 * c).
    destruct (in_cone_step C) as (C' & Lo & Hi).
    split; [ | split; [ exact C' | ] ].
    + change (after (S n) (released p T))
        with (SpringPoint.update 1 (after n (released p T))).
      now apply scaled_update.
    + cbn [pow]. destruct C as (Hc & _). lra.
Qed.

Lemma distance_released (p T : Vector2 R) :
  distance (released p T) = Vector2.length (Vector2.subtract p T).
Proof.
  rewrite (distance_scaled (c := 1) (w := 0) (p := p) (T := T));
    [ ring | lra | apply scaled_released ].
Qed.

(** One step multiplies the distance to the target by a factor between 0.7
    and 0.85. *)
Lemma distance_step (p T : Vector2 R) (n : nat) :
  7 / 10 * distance (after n (released p T))
  <= distance (after (S n) (released p T))
  <= 85 / 100 * distance (after n (released p T)).
Proof.
  destruct (scaled_after p T n) as (c & w & Sc & C & _).
  destruct (in_cone_step C) as (C' & Lo & Hi).
  pose proof (scaled_update Sc) as Sc'.
  change (SpringPoint.update 1 (after n (released p T)))
    with (after (S n) (released p T)) in Sc'.
  rewrite (distance_scaled (proj1 C) Sc), (distance_scaled (proj1 C') Sc').
  pose proof (length_nonneg (Vector2.subtract p T)) as L.
  split; nra.
Qed.

Lemma distance_nonneg (p T : Vector2 R) (n : nat) :
  0 <= distance (after n (released p T)).
Proof. apply length_nonneg. Qed.

Lemma distance_after (p T : Vector2 R) (n : nat) :
  (7 / 10) ^ n * distance (released p T)
  <= distance (after n (released p T))
  <= (85 / 100) ^ n * distance (released p T).
Proof.
  induction n as [ | n IH ].
  - change (after 0 (released p T)) with (released p T). cbn [pow]. lra.
  - pose proof (distance_step p T n) as St. cbn [pow]. lra.
Qed.

(** Powers of 500 by way of powers of 20, which are small enough to be
    compared as constants. *)
Lemma pow_500_le (x q : R) : 0 <= x -> x ^ 20 <= q -> x ^ 500 <= q ^ 25.
Proof.
  intros Hx Hq. change 500%nat with (20 * 25)%nat. rewrite pow_mult.
  apply pow_incr. split; [ apply pow_le; exact Hx | exact Hq ].
Qed.

Lemma pow_500_ge (x q : R) : 0 <= q -> q <= x ^ 20 -> q ^ 25 <= x ^ 500.
Proof.
  intros Hq Hx. change 500%nat with (20 * 25)%nat. rewrite pow_mult.
  apply pow_incr. split; assumption.
Qed.

(** [0.85 ^ 500 * 10 ^ 32 < 0.001], from [0.85 ^ 20 <= 0.039]. *)
Lemma shrink_500 : (85 / 100) ^ 500 * 10 ^ 32 < 1 / 1000.
Proof.
  assert (H20 : (85 / 100) ^ 20 <= 39 / 1000) by lra.
  pose proof (pow_500_le (x := 85 / 100) (q := 39 / 1000)
                         ltac:(lra) H20) as H500.
  assert (C : (39 / 1000) ^ 25 * 10 ^ 32 < 1 / 1000) by lra.
  assert (P : 0 < 10 ^ 32) by (apply pow_lt; lra).
  clear H20. revert H500 C P.
  generalize ((85 / 100) ^ 500), ((39 / 1000) ^ 25), (10 ^ 32).
  intros X Y Z H500 C P. nra.
Qed.

(** [0.001 <= 0.7 ^ 500 * 10 ^ 80], from [0.00079 <= 0.7 ^ 20]. *)
Lemma shrink_500_at_least : 1 / 1000 <= (7 / 10) ^ 500 * 10 ^ 80.
Proof.
  assert (H20 : 79 / 100000 <= (7 / 10) ^ 20) by lra.
  pose proof (pow_500_ge (x := 7 / 10) (q := 79 / 100000)
                         ltac:(lra) H20) as H500.
  assert (C : 1 / 1000 <= (79 / 100000) ^ 25 * 10 ^ 80) by lra.
  assert (P : 0 < 10 ^ 80) by (apply pow_lt; lra).
  clear H20. revert H500 C P.
  generalize ((7 / 10) ^ 500), ((79 / 100000) ^ 25), (10 ^ 80).
  intros X Y Z H500 C P. nra.
Qed.

Lemma pow_le_from (x : R) (m n : nat) :
  0 <= x <= 1 -> (m <= n)%nat -> x ^ n <= x ^ m.
Proof.
  intros Hx Hmn. replace n with (m + (n - m))%nat by lia.
  rewrite pow_add.
  assert (0 <= x ^ m) by (apply pow_le; lra).
  assert (x ^ (n - m) <= 1).
  { rewrite <- (pow1 (n - m)). apply pow_incr. lra. }
  nra.
Qed.

(** C9, as the code has it, in exact arithmetic.  A point with the default
    constants, released at rest at distance [d 0] from a constant target and
    updated with [deltaTime = 1]: its distance [d n] to the target after [n]
    steps stays between 0 and [d 0], never increases (each step multiplies it
    by a factor between 0.7 and 0.85), is at most [0.85 ^ n * d 0] and so
    tends to 0; and from step 500 on it is below 0.001 when
    [d 0 <= 10 ^ 32].  All of this is about real numbers: in binary64 the
    steps are rounded, see the counterexample. *)
Theorem spring_converges (p T : Vector2 R) :
  let d := fun n : nat => distance (after n (released p T)) in
  d 0%nat = Vector2.length (Vector2.subtract p T)
  /\ (forall n, 0 <= d n <= d 0%nat)
  /\ (forall n, 7 / 10 * d n <= d (S n) <= 85 / 100 * d n /\ d (S n) <= d n)
  /\ (forall n, d n <= (85 / 100) ^ n * d 0%nat)
  /\ (forall eps, 0 < eps -> exists N, forall n, (N <= n)%nat -> d n < eps)
  /\ (d 0%nat <= 10 ^ 32 -> forall n, (500 <= n)%nat -> d n < 1 / 1000).
Proof.
  cbv beta zeta. change (after 0 (released p T)) with (released p T).
  pose proof (distance_nonneg p T 0) as D0.
  change (after 0 (released p T)) with (released p T) in D0.
  assert (Up : forall n, distance (after n (released p T))
                         <= (85 / 100) ^ n * distance (released p T)).
  { intros n. apply distance_after. }
  assert (P1 : forall n, 0 <= (85 / 100) ^ n <= 1).
  { intros n. split; [ apply pow_le; lra | ].
    rewrite <- (pow1 n). apply pow_incr. lra. }
  split; [ apply distance_released | ].
  split; [ | split; [ | split; [ exact Up | split ] ] ].
  - intros n. split; [ apply distance_nonneg | ].
    specialize (Up n). specialize (P1 n). nra.
  - intros n. pose proof (distance_step p T n) as St.
    pose proof (distance_nonneg p T n) as Dn. split; lra.
  - intros eps Heps.
    destruct (Req_dec_T (distance (released p T)) 0) as [ Z0 | NZ ].
    + exists 0%nat. intros n _. specialize (Up n). rewrite Z0 in Up. lra.
    + assert (Dpos : 0 < distance (released p T)) by lra.
      destruct (pow_lt_1_zero (85 / 100))
        with (y := eps / distance (released p T)) as [N HN].
      * rewrite Rabs_pos_eq; lra.
      * now apply Rdiv_lt_0_compat.
      * exists N. intros n Hn. specialize (HN n Hn). specialize (Up n).
        rewrite Rabs_pos_eq in HN by apply P1.
        apply Rlt_le_trans with (eps / distance (released p T)
                                 * distance (released p T)).
        -- apply Rle_lt_trans with (1 := Up).
           now apply Rmult_lt_compat_r.
        -- right. field. lra.
  - intros Hd n Hn. specialize (Up n).
    assert (Q : (85 / 100) ^ n <= (85 / 100) ^ 500).
    { apply pow_le_from; [ lra | exact Hn ]. }
    pose proof shrink_500 as Sh.
    pose proof (proj1 (P1 n)) as Pn.
    revert Up Q Sh Pn Hd D0.
    generalize (distance (after n (released p T))),
      (distance (released p T)), ((85 / 100) ^ n), ((85 / 100) ^ 500),
      (10 ^ 32).
    intros dn d0 Xn X500 B Up Q Sh Pn Hd D0. nra.
Qed.

(** C9 at a point released 500 pixels from its target. *)
Lemma spring_converges_witness :
  let this := released (Vector2.new 300 400) (Vector2.new 0 0) in
  distance this = 500
  /\ distance this <= 10 ^ 32
  /\ distance (after 500 this) < 1 / 1000.
Proof.
  cbv zeta.
  assert (E : distance (released (Vector2.new 300 400) (Vector2.new 0 0))
              = 500).
  { rewrite distance_released.
    cbv [Vector2.length Vector2.subtract]; at_R; cbn [Vector2.x Vector2.y].
    replace ((300 - 0) * (300 - 0) + (400 - 0) * (400 - 0)) with (500 * 500)
      by ring.
    apply sqrt_square. lra. }
  assert (D : distance (released (Vector2.new 300 400) (Vector2.new 0 0))
              <= 10 ^ 32).
  { rewrite E. apply Rle_trans with (10 ^ 3); [ lra | ].
    apply Rle_pow; [ lra | lia ]. }
  split; [ exact E | ]. split; [ exact D | ].
  exact (proj2 (proj2 (proj2 (proj2 (proj2
           (spring_converges (Vector2.new 300 400) (Vector2.new 0 0))))))
           D 500%nat (le_n 500)).
Defined.

(** What [beyond] computes. *)
Lemma beyond_after {A : Type} `{Number A} (eps : A) (n : nat)
      (this : SpringPoint A) :
  beyond eps n this = true ->
  forall k, (k <= n)%nat -> (distance (after k this) >=? eps)%num = true.
Proof.
  revert this. induction n as [ | n IH ]; intros this B k Hk;
    cbn [beyond] in B; apply andb_prop in B; destruct B as [B0 B].
  - replace k with 0%nat by lia. exact B0.
  - destruct k as [ | k ]; [ exact B0 | ].
    cbv [after]. rewrite Nat.iter_succ_r. apply (IH _ B). lia.
Qed.

(** C9, as the claim has it, fails.  In exact arithmetic, released
    [10 ^ 80] away from its target, the point is not within 0.001 of it at
    any of the first 500 steps, and in binary64 it is not at step 500.  In
    binary64 the distance matters less than the size of the coordinates:
    released 500 away from the target [(1e14, 0)], the point is not within
    0.001 of it at any of the first 500 steps, and it stays 0.03125 away,
    two units in the last place of its abscissa. *)
Lemma spring_far_not_within_500 :
  ~ (exists n, (n <= 500)%nat
               /\ distance (after n (released (Vector2.new (10 ^ 80) 0)
                                              (Vector2.new 0 0)))
                  < 1 / 1000)
  /\ PrimFloat.leb
       (dec 1 1000)
       (distance (after 500 (released (Vector2.new 1e80%float 0%float)
                                      (Vector2.new 0%float 0%float))))
     = true
  /\ (let this := released (Vector2.new 100000000000500%float 0%float)
                           (Vector2.new 100000000000000%float 0%float) in
      distance this = 500%float
      /\ (forall k, (k <= 500)%nat ->
          PrimFloat.leb (dec 1 1000) (distance (after k this)) = true)
      /\ distance (after 500 this) = 0.03125%float
      /\ distance (after 5000 this) = 0.03125%float).
Proof.
  split; [ | split; [ vm_compute; reflexivity | ] ].
  2: { cbv zeta. split; [ vm_compute; reflexivity | ].
       split; [ | split; vm_compute; reflexivity ].
       intros k Hk.
       exact (@beyond_after float Number_float (dec 1 1000) 500
                (released (Vector2.new 100000000000500%float 0%float)
                          (Vector2.new 100000000000000%float 0%float))
                eq_refl k Hk). }
  intros (n & Hn & Hlt).
  pose proof (distance_after (Vector2.new (10 ^ 80) 0) (Vector2.new 0 0) n)
    as [Lo _].
  assert (D0 : distance (released (Vector2.new (10 ^ 80) 0) (Vector2.new 0 0))
               = 10 ^ 80).
  { rewrite distance_released.
    cbv [Vector2.length Vector2.subtract]; at_R; cbn [Vector2.x Vector2.y].
    replace ((10 ^ 80 - 0) * (10 ^ 80 - 0) + (0 - 0) * (0 - 0))
      with (10 ^ 80 * 10 ^ 80) by ring.
    apply sqrt_square, pow_le. lra. }
  rewrite D0 in Lo.
  assert (Q : (7 / 10) ^ 500 <= (7 / 10) ^ n).
  { apply pow_le_from; [ lra | exact Hn ]. }
  pose proof shrink_500_at_least as Sh.
  assert (P : 0 <= 10 ^ 80) by (apply pow_le; lra).
  revert Hlt Lo Q Sh P.
  generalize (distance (after n (released (Vector2.new (10 ^ 80) 0)
                                          (Vector2.new 0 0)))),
    ((7 / 10) ^ n), ((7 / 10) ^ 500), (10 ^ 80).
  intros dn Xn X500 B Hlt Lo Q Sh P. nra.
Qed.

(** In binary64, a point released 500 pixels from its target is within 0.001
    of it after 500 steps, and at the steps sampled on the way its distance
    has not grown. *)
Remark spring_binary64 :
  let this := released (Vector2.new 300%float 400%float)
                       (Vector2.new 0%float 0%float) in
  let d := fun n : nat => distance (after n this) in
  d 0%nat = 500%float
  /\ PrimFloat.ltb (d 500%nat) (dec 1 1000) = true
  /\ forallb (fun '(m, n) => PrimFloat.leb (d n) (d m))
             [ (0, 1); (1, 2); (2, 10); (10, 100); (100, 500) ]%nat = true.
Proof. vm_compute. repeat split. Qed.

(** * Further properties of the code *)

(** ** The curve, continued *)

(** The four Bernstein weights of [bezierPoint]. *)
Lemma bernstein_weights (t : R) :
  0 <= t <= 1 ->
  0 <= (1 - t) * (1 - t) * (1 - t)
  /\ 0 <= 3 * ((1 - t) * (1 - t)) * t
  /\ 0 <= 3 * (1 - t) * (t * t)
  /\ 0 <= t * t * t
  /\ (1 - t) * (1 - t) * (1 - t) + 3 * ((1 - t) * (1 - t)) * t
     + 3 * (1 - t) * (t * t) + t * t * t = 1.
Proof.
  intros [H0 H1].
  assert (0 <= 1 - t) by lra.
  assert (0 <= (1 - t) * (1 - t)) by nra.
  assert (0 <= t * t) by nra.
  repeat split; nra.
Qed.

(** A combination with weights that are not negative and add up to one lies
    between the least and the greatest of the values combined. *)
Lemma convex_between (w0 w1 w2 w3 a b c d : R) :
  0 <= w0 -> 0 <= w1 -> 0 <= w2 -> 0 <= w3 -> w0 + w1 + w2 + w3 = 1 ->
  Rmin (Rmin a b) (Rmin c d) <= w0 * a + w1 * b + w2 * c + w3 * d
  <= Rmax (Rmax a b) (Rmax c d).
Proof.
  intros H0 H1 H2 H3 S.
  set (lo := Rmin (Rmin a b) (Rmin c d)).
  set (hi := Rmax (Rmax a b) (Rmax c d)).
  assert (La : lo <= a) by (subst lo; eapply Rle_trans; [ apply Rmin_l | apply Rmin_l ]).
  assert (Lb : lo <= b) by (subst lo; eapply Rle_trans; [ apply Rmin_l | apply Rmin_r ]).
  assert (Lc : lo <= c) by (subst lo; eapply Rle_trans; [ apply Rmin_r | apply Rmin_l ]).
  assert (Ld : lo <= d) by (subst lo; eapply Rle_trans; [ apply Rmin_r | apply Rmin_r ]).
  assert (Ha : a <= hi) by (subst hi; eapply Rle_trans; [ apply Rmax_l | apply Rmax_l ]).
  assert (Hb : b <= hi) by (subst hi; eapply Rle_trans; [ apply Rmax_r | apply Rmax_l ]).
  assert (Hc : c <= hi) by (subst hi; eapply Rle_trans; [ apply Rmax_l | apply Rmax_r ]).
  assert (Hd : d <= hi) by (subst hi; eapply Rle_trans; [ apply Rmax_r | apply Rmax_r ]).
  clearbody lo hi.
  assert (w3 = 1 - w0 - w1 - w2) by lra. subst w3.
  split; nra.
Qed.

(** X1.  For [t] between 0 and 1 the point of the curve is a convex
    combination of the four control points: weights that are not negative and
    add up to one.  Each of its coordinates therefore lies between the least
    and the greatest of that coordinate over the control points: the curve
    stays in the bounding box of its control polygon. *)
Theorem bezierPoint_convex (t : R) (p0 p1 p2 p3 : Vector2 R) :
  0 <= t <= 1 ->
  (exists w0 w1 w2 w3,
      0 <= w0 /\ 0 <= w1 /\ 0 <= w2 /\ 0 <= w3 /\ w0 + w1 + w2 + w3 = 1
      /\ bezierPoint t p0 p1 p2 p3
         = Vector2.add
             (Vector2.add
                (Vector2.add (Vector2.multiply p0 w0) (Vector2.multiply p1 w1))
                (Vector2.multiply p2 w2))
             (Vector2.multiply p3 w3))
  /\ Rmin (Rmin (Vector2.x p0) (Vector2.x p1))
          (Rmin (Vector2.x p2) (Vector2.x p3))
     <= Vector2.x (bezierPoint t p0 p1 p2 p3)
     <= Rmax (Rmax (Vector2.x p0) (Vector2.x p1))
             (Rmax (Vector2.x p2) (Vector2.x p3))
  /\ Rmin (Rmin (Vector2.y p0) (Vector2.y p1))
          (Rmin (Vector2.y p2) (Vector2.y p3))
     <= Vector2.y (bezierPoint t p0 p1 p2 p3)
     <= Rmax (Rmax (Vector2.y p0) (Vector2.y p1))
             (Rmax (Vector2.y p2) (Vector2.y p3)).
Proof.
  intros Ht. destruct (bernstein_weights Ht) as (W0 & W1 & W2 & W3 & S).
  destruct p0 as [x0 y0], p1 as [x1 y1], p2 as [x2 y2], p3 as [x3 y3].
  split; [ | split ].
  - exists ((1 - t) * (1 - t) * (1 - t)), (3 * ((1 - t) * (1 - t)) * t),
      (3 * (1 - t) * (t * t)), (t * t * t).
    repeat (split; [ assumption | ]).
    cbv [bezierPoint]; vec_eq.
  - cbv [bezierPoint]; at_R; cbn [Vector2.x].
    now apply convex_between.
  - cbv [bezierPoint]; at_R; cbn [Vector2.y].
    now apply convex_between.
Qed.

(** X1 at the middle of the curve of the end-to-end scenario. *)
Lemma bezierPoint_convex_witness :
  0 <= 1 / 2 <= 1
  /\ Rmin (Rmin 0 0) (Rmin 100 100)
     <= Vector2.x (bezierPoint (1 / 2) (Vector2.new 0 0) (Vector2.new 0 100)
                               (Vector2.new 100 100) (Vector2.new 100 0))
     <= Rmax (Rmax 0 0) (Rmax 100 100).
Proof.
  assert (Ht : 0 <= 1 / 2 <= 1) by lra.
  split; [ exact Ht | ].
  exact (proj1 (proj2 (bezierPoint_convex
                         (Vector2.new 0 0) (Vector2.new 0 100)
                         (Vector2.new 100 100) (Vector2.new 100 0) Ht))).
Defined.

(** X2.  Reversing the control polygon reverses the parameter: the curve
    through [p3, p2, p1, p0] at [1 - t] is the curve through [p0, p1, p2, p3]
    at [t], and its tangent is the opposite one. *)
Theorem bezier_reversal (t : R) (p0 p1 p2 p3 : Vector2 R) :
  bezierPoint (1 - t) p3 p2 p1 p0 = bezierPoint t p0 p1 p2 p3
  /\ bezierTangent (1 - t) p3 p2 p1 p0
     = Vector2.multiply (bezierTangent t p0 p1 p2 p3) (-1).
Proof.
  destruct p0 as [x0 y0], p1 as [x1 y1], p2 as [x2 y2], p3 as [x3 y3].
  split; cbv [bezierPoint bezierTangent]; vec_eq.
Qed.

(** X3.  The curve follows its control points under translation and scaling:
    moving every control point by [d] moves every point of the curve by [d]
    and leaves the tangent as it is, and scaling every control point by [k]
    scales both. *)
Theorem bezier_affine (t k : R) (d p0 p1 p2 p3 : Vector2 R) :
  bezierPoint t (Vector2.add p0 d) (Vector2.add p1 d) (Vector2.add p2 d)
              (Vector2.add p3 d)
  = Vector2.add (bezierPoint t p0 p1 p2 p3) d
  /\ bezierTangent t (Vector2.add p0 d) (Vector2.add p1 d) (Vector2.add p2 d)
                   (Vector2.add p3 d)
     = bezierTangent t p0 p1 p2 p3
  /\ bezierPoint t (Vector2.multiply p0 k) (Vector2.multiply p1 k)
                 (Vector2.multiply p2 k) (Vector2.multiply p3 k)
     = Vector2.multiply (bezierPoint t p0 p1 p2 p3) k
  /\ bezierTangent t (Vector2.multiply p0 k) (Vector2.multiply p1 k)
                   (Vector2.multiply p2 k) (Vector2.multiply p3 k)
     = Vector2.multiply (bezierTangent t p0 p1 p2 p3) k.
Proof.
  destruct d as [dx dy].
  destruct p0 as [x0 y0], p1 as [x1 y1], p2 as [x2 y2], p3 as [x3 y3].
  repeat split; cbv [bezierPoint bezierTangent]; vec_eq.
Qed.

(** X4.  At its two ends the curve leaves along the control polygon: the
    tangent at [t = 0] is three times [p1 - p0] and the tangent at [t = 1] is
    three times [p3 - p2].  When the four control points coincide the curve is
    that point for every [t] and its tangent is zero everywhere. *)
Theorem bezierTangent_ends (p0 p1 p2 p3 : Vector2 R) :
  bezierTangent 0 p0 p1 p2 p3 = Vector2.multiply (Vector2.subtract p1 p0) 3
  /\ bezierTangent 1 p0 p1 p2 p3 = Vector2.multiply (Vector2.subtract p3 p2) 3
  /\ (forall t : R,
         bezierPoint t p0 p0 p0 p0 = p0
         /\ bezierTangent t p0 p0 p0 p0 = Vector2.new 0 0).
Proof.
  destruct p0 as [x0 y0], p1 as [x1 y1], p2 as [x2 y2], p3 as [x3 y3].
  repeat split; cbv [bezierPoint bezierTangent]; vec_eq.
Qed.

(** ** Vectors, continued *)

Lemma normalize_of_zero_length (v : Vector2 R) :
  Vector2.length v = 0 -> Vector2.normalize v = Vector2.new 0 0.
Proof.
  intros E. cbv [Vector2.normalize].
  replace ((Vector2.length v === lit 0)%num) with true; [ reflexivity | ].
  symmetry. at_R. now apply Req_bool_true.
Qed.

Lemma normalize_of_nonzero_length (v : Vector2 R) :
  Vector2.length v <> 0 ->
  Vector2.normalize v
  = Vector2.new (Vector2.x v / Vector2.length v)
                (Vector2.y v / Vector2.length v).
Proof.
  intros E. cbv [Vector2.normalize].
  replace ((Vector2.length v === lit 0)%num) with false; [ reflexivity | ].
  symmetry. at_R. now apply Req_bool_false.
Qed.

Lemma length_zero_iff (v : Vector2 R) :
  Vector2.length v = 0 <-> v = Vector2.new 0 0.
Proof.
  destruct v as [a b]. cbv [Vector2.length]; at_R; cbn [Vector2.x Vector2.y].
  split.
  - intros E. apply sqrt_eq_0 in E; [ | apply sum_squares_nonneg ].
    assert (a = 0) by nra. assert (b = 0) by nra. now subst.
  - intros E. injection E as -> ->.
    replace (0 * 0 + 0 * 0) with 0 by ring. apply sqrt_0.
Qed.

Lemma length_multiply (v : Vector2 R) (k : R) :
  0 <= k -> Vector2.length (Vector2.multiply v k) = k * Vector2.length v.
Proof.
  intros Hk. destruct v as [a b].
  cbv [Vector2.length Vector2.multiply]; at_R; cbn [Vector2.x Vector2.y].
  rewrite <- sqrt_scaled by exact Hk. f_equal. ring.
Qed.

(** X5.  In exact arithmetic [normalize] keeps the direction and nothing
    else: only the zero vector has length zero and only the zero vector is
    normalised to the zero vector; normalising twice is normalising once; and
    a vector and its multiples by positive numbers are normalised to the same
    vector. *)
Theorem normalize_direction (v : Vector2 R) :
  (Vector2.length v = 0 <-> v = Vector2.new 0 0)
  /\ (Vector2.normalize v = Vector2.new 0 0 <-> v = Vector2.new 0 0)
  /\ Vector2.normalize (Vector2.normalize v) = Vector2.normalize v
  /\ (forall k : R,
         0 < k ->
         Vector2.normalize (Vector2.multiply v k) = Vector2.normalize v).
Proof.
  assert (Z0 : Vector2.length (Vector2.new 0 0) = 0)
    by now apply length_zero_iff.
  split; [ apply length_zero_iff | ].
  destruct (Req_dec_T (Vector2.length v) 0) as [ E | NE ].
  - pose proof (proj1 (length_zero_iff v) E) as V. subst v.
    rewrite (normalize_of_zero_length _ Z0).
    split; [ tauto | ]. split; [ now apply normalize_of_zero_length | ].
    intros k Hk.
    assert (M : Vector2.multiply (Vector2.new 0 0) k = Vector2.new 0 0)
      by vec_eq.
    rewrite M. now rewrite (normalize_of_zero_length _ Z0).
  - pose proof (@length_normalize v NE) as L1.
    split; [ | split ].
    + split; intros F.
      * rewrite F, Z0 in L1. lra.
      * apply length_zero_iff in F. contradiction.
    + rewrite (normalize_of_nonzero_length (Vector2.normalize v))
        by (rewrite L1; lra).
      rewrite L1. destruct (Vector2.normalize v) as [a b]. vec_eq.
    + intros k Hk.
      assert (NK : Vector2.length (Vector2.multiply v k) <> 0).
      { rewrite length_multiply by lra.
        pose proof (length_nonneg v). nra. }
      rewrite (normalize_of_nonzero_length _ NK),
        (normalize_of_nonzero_length _ NE), length_multiply by lra.
      destruct v as [a b]. cbv [Vector2.multiply]; at_R; cbn [Vector2.x Vector2.y].
      f_equal; field; split; lra.
Qed.

(** X5 at [(3, 4)] and its double. *)
Lemma normalize_direction_witness :
  0 < 2
  /\ Vector2.normalize (Vector2.multiply (Vector2.new 3 4) 2)
     = Vector2.normalize (Vector2.new 3 4).
Proof.
  assert (H : 0 < 2) by lra.
  split; [ exact H | ].
  exact (proj2 (proj2 (proj2 (normalize_direction (Vector2.new 3 4)))) 2 H).
Defined.

(** In binary64 the squares can underflow or overflow: a vector as short as
    [1e-200] has a computed length of zero and is normalised to the zero
    vector, and one as long as [1e200] has an infinite computed length and is
    normalised to the zero vector as well. *)
Remark normalize_binary64_range :
  Vector2.normalize (Vector2.new 1e-200%float 0%float)
  = Vector2.new 0%float 0%float
  /\ Vector2.normalize (Vector2.new 1e200%float 0%float)
     = Vector2.new 0%float 0%float.
Proof. vm_compute. split; reflexivity. Qed.

(** ** Springs, continued *)

(** X6.  The points that [update] leaves where they are.  A point that sits
    on its target with no velocity is returned unchanged by [update] for
    every step.  Conversely a point that is not fixed, with a spring constant
    that is not zero, and that [update] returns unchanged for a step that is
    not zero, sits on its target with no velocity. *)
Theorem update_equilibrium (deltaTime : R) (this : SpringPoint R) :
  (SpringPoint.position this = SpringPoint.target this ->
   SpringPoint.velocity this = Vector2.new 0 0 ->
   SpringPoint.update deltaTime this = this)
  /\ (SpringPoint.fixed this = false ->
      SpringPoint.springConstant this <> 0 -> deltaTime <> 0 ->
      SpringPoint.update deltaTime this = this ->
      SpringPoint.position this = SpringPoint.target this
      /\ SpringPoint.velocity this = Vector2.new 0 0).
Proof.
  destruct this as [[px py] [vx vy] [tx ty] fx k d]. fields. split.
  - intros P V. injection P as -> ->. injection V as -> ->.
    cbv [SpringPoint.update]; fields. destruct fx; [ reflexivity | ].
    cbv [Vector2.add Vector2.subtract Vector2.multiply]; at_R; fields.
    f_equal; f_equal; ring.
  - intros -> Hk Hdt U.
    cbv [SpringPoint.update Vector2.add Vector2.subtract Vector2.multiply] in U;
      at_R; fields.
    injection U as Px Py Vx Vy.
    assert (Ax : (px - tx) * - k + vx * - d = 0) by nra.
    assert (Ay : (py - ty) * - k + vy * - d = 0) by nra.
    rewrite Ax in Px, Vx. rewrite Ay in Py, Vy.
    assert (vx = 0) by nra. assert (vy = 0) by nra. subst vx vy.
    assert (px = tx) by nra. assert (py = ty) by nra. subst px py.
    now split.
Qed.

(** X6 on a point just constructed, which sits on its own target. *)
Lemma update_equilibrium_witness :
  SpringPoint.update 2 (SpringPoint.new 400 150 false)
  = SpringPoint.new 400 150 false.
Proof.
  exact (proj1 (update_equilibrium 2 (SpringPoint.new 400 150 false))
           eq_refl eq_refl).
Defined.

(** One [update(2)], the largest step the loop yields, on the two scales. *)
Lemma scaled_update_cap (p T : Vector2 R) (c w c' w' : R)
      (this : SpringPoint R) :
  scaled p T c w this ->
  c' = 4 / 10 * c - 14 / 10 * w -> w' = - (7 / 10) * w - 3 / 10 * c ->
  scaled p T c' w' (SpringPoint.update 2 this).
Proof.
  destruct p as [px py], T as [tx ty], this as [pos vel tgt fx k d].
  cbv [scaled]; fields.
  intros (-> & -> & -> & -> & -> & ->) -> ->.
  cbv [SpringPoint.update Vector2.add Vector2.subtract Vector2.multiply];
    at_R; fields.
  repeat split; f_equal; field.
Qed.

(** After [n] steps of 2 the scales are the sum of a part that only changes
    sign and a part that shrinks by 0.7 a step. *)
Lemma scaled_after_cap (p T : Vector2 R) (n : nat) :
  scaled p T (3 / 17 * (-1) ^ n + 14 / 17 * (7 / 10) ^ n)
         (3 / 17 * (-1) ^ n - 3 / 17 * (7 / 10) ^ n)
         (after_step 2 n (released p T)).
Proof.
  induction n as [ | n IH ].
  - change (after_step 2 0 (released p T)) with (released p T).
    cbn [pow].
    replace (3 / 17 * 1 + 14 / 17 * 1) with 1 by field.
    replace (3 / 17 * 1 - 3 / 17 * 1) with 0 by field.
    apply scaled_released.
  - change (after_step 2 (S n) (released p T))
      with (SpringPoint.update 2 (after_step 2 n (released p T))).
    apply (scaled_update_cap IH); cbn [pow]; field.
Qed.

(** X7.  With the step 2, which the loop yields whenever two frames are
    33.34 ms or more apart, a released point does not settle.  A point whose
    velocity equals its displacement from the target is thrown to the opposite
    side with the opposite velocity, so two steps bring it back; and a point
    released at rest at distance [d 0] is, after every even number [2 m] of
    steps, at distance [(3/17 + 14/17 * 0.49 ^ m) * d 0], never less than
    [3/17] of where it started. *)
Theorem spring_at_cap (p T D : Vector2 R) (m : nat) :
  let d := fun n : nat => distance (after_step 2 n (released p T)) in
  SpringPoint.update 2
    (SpringPoint.mk (Vector2.add T D) D T false (15 / 100) (85 / 100))
  = SpringPoint.mk (Vector2.subtract T D) (Vector2.multiply D (-1)) T false
                   (15 / 100) (85 / 100)
  /\ d (2 * m)%nat = (3 / 17 + 14 / 17 * (49 / 100) ^ m) * d 0%nat
  /\ 3 / 17 * d 0%nat <= d (2 * m)%nat.
Proof.
  cbv beta zeta.
  assert (P : 0 <= (49 / 100) ^ m) by (apply pow_le; lra).
  assert (E : distance (after_step 2 (2 * m) (released p T))
              = (3 / 17 + 14 / 17 * (49 / 100) ^ m)
                * distance (after_step 2 0 (released p T))).
  { change (after_step 2 0 (released p T)) with (released p T).
    rewrite distance_released.
    pose proof (scaled_after_cap p T (2 * m)) as Sc.
    rewrite pow_1_even, pow_mult in Sc.
    replace ((7 / 10) ^ 2) with (49 / 100) in Sc by field.
    rewrite (distance_scaled (p := p) (T := T) (c := 3 / 17 * 1 + 14 / 17 * (49 / 100) ^ m)
               (w := 3 / 17 * 1 - 3 / 17 * (49 / 100) ^ m)); [ | nra | exact Sc ].
    ring. }
  split; [ | split; [ exact E | ] ].
  - destruct T as [tx ty], D as [dx dy].
    cbv [SpringPoint.update Vector2.add Vector2.subtract Vector2.multiply];
      at_R; fields.
    f_equal; f_equal; field.
  - rewrite E.
    pose proof (distance_nonneg p T 0) as D0.
    change (after 0 (released p T)) with (after_step 2 0 (released p T)) in D0.
    nra.
Qed.

(** In binary64, released 500 pixels from its target and stepped by 2, a point
    is still more than 88 pixels away after 500 and after 5000 steps. *)
Remark spring_at_cap_binary64 :
  let this := released (Vector2.new 300%float 400%float)
                       (Vector2.new 0%float 0%float) in
  PrimFloat.leb 88%float (distance (after_step 2%float 500 this)) = true
  /\ PrimFloat.leb 88%float (distance (after_step 2%float 5000 this)) = true.
Proof. vm_compute. split; reflexivity. Qed.

(** ** The loop, continued *)

Lemma Rge_bool_true (a b : R) : Rge_bool a b = true <-> b <= a.
Proof. unfold Rge_bool. destruct (Rle_dec b a); split; try congruence; lra. Qed.

Lemma Rge_bool_false (a b : R) : Rge_bool a b = false <-> a < b.
Proof. unfold Rge_bool. destruct (Rle_dec b a); split; try congruence; lra. Qed.

Lemma run_app {A : Type} `{Number A} (pf : Platform) (evs evs' : list (Event A))
      (s : Sim A) :
  run pf (evs ++ evs') s = run pf evs' (run pf evs s).
Proof. apply fold_left_app. Qed.

(** The rig the effect builds from the readings [r]. *)
Lemma points_setup {A : Type} `{Number A} (pf : Platform) (m : Mode) (fps0 : A)
      (r : Readings A) :
  points (setup pf m fps0 r)
  = [ SpringPoint.new (offsetWidth r * dec 2 10)%num
                      (offsetHeight r * dec 5 10)%num true;
      SpringPoint.new (offsetWidth r * dec 4 10)%num
                      (offsetHeight r * dec 3 10)%num false;
      SpringPoint.new (offsetWidth r * dec 6 10)%num
                      (offsetHeight r * dec 7 10)%num false;
      SpringPoint.new (offsetWidth r * dec 8 10)%num
                      (offsetHeight r * dec 5 10)%num true ].
Proof. reflexivity. Qed.

Lemma SpringPoint_ext (px py vx vy tx ty k d px' py' vx' vy' tx' ty' k' d' : R)
      (f : bool) :
  px = px' -> py = py' -> vx = vx' -> vy = vy' -> tx = tx' -> ty = ty' ->
  k = k' -> d = d' ->
  SpringPoint.mk (Vector2.new px py) (Vector2.new vx vy) (Vector2.new tx ty)
                 f k d
  = SpringPoint.mk (Vector2.new px' py') (Vector2.new vx' vy')
                   (Vector2.new tx' ty') f k' d'.
Proof. now intros -> -> -> -> -> -> -> ->. Qed.

(** A frame on the rig as built, with the canvas as it was and the mouse
    where the effect put it (or, in [gyro] mode, no sample yet), returns the
    rig as built. *)
Lemma frame_at_rest (pf : Platform) (m : Mode) (fps0 : R) (r : Readings R)
      (currentTime : R) (s : Sim R) :
  points s = points (setup pf m fps0 r) ->
  width s = offsetWidth r -> height s = offsetHeight r ->
  mode s = m -> mousePos s = mousePos (setup pf m fps0 r) ->
  gyroActive s = false ->
  points (updatePhysics currentTime s) = points (setup pf m fps0 r).
Proof.
  intros P W Hh M Mp G. rewrite points_updatePhysics. cbv [applyInput].
  rewrite P, W, Hh, M, Mp, G, points_setup. cbv [setup mousePos].
  destruct m; cbn [call_at map];
    cbv [SpringPoint.update SpringPoint.setTarget SpringPoint.new
           Vector2.add Vector2.subtract Vector2.multiply];
    at_R; fields;
    repeat (apply f_equal2;
            [ first [ reflexivity
                    | apply SpringPoint_ext; first [ reflexivity | field ] ]
            | ]);
    reflexivity.
Qed.

(** X8.  A component that has just run its effect is at rest: the four
    points sit on the anchors [(0.2 w, 0.5 h)], [(0.4 w, 0.3 h)],
    [(0.6 w, 0.7 h)], [(0.8 w, 0.5 h)] of the canvas size read, on their
    targets and with no velocity, and any number of frames, at whatever time
    stamps, leaves them there for as long as no mouse, orientation or resize
    event arrives.  This is so in either mode. *)
Theorem mounted_at_rest (pf : Platform) (m : Mode) (fps0 : R)
        (r : Readings R) (ts : list R) :
  points (run pf (frames ts) (effect pf m fps0 r))
  = [ SpringPoint.new (offsetWidth r * (2 / 10)) (offsetHeight r * (5 / 10))
                      true;
      SpringPoint.new (offsetWidth r * (4 / 10)) (offsetHeight r * (3 / 10))
                      false;
      SpringPoint.new (offsetWidth r * (6 / 10)) (offsetHeight r * (7 / 10))
                      false;
      SpringPoint.new (offsetWidth r * (8 / 10)) (offsetHeight r * (5 / 10))
                      true ].
Proof.
  change (points (run pf (frames ts) (effect pf m fps0 r))
          = points (setup pf m fps0 r)).
  assert (I : forall s,
             points s = points (setup pf m fps0 r) ->
             width s = offsetWidth r -> height s = offsetHeight r ->
             mode s = m -> mousePos s = mousePos (setup pf m fps0 r) ->
             gyroActive s = false ->
             points (run pf (frames ts) s) = points (setup pf m fps0 r)).
  { induction ts as [ | t ts IH ]; intros s P W Hh M Mp G; [ exact P | ].
    change (run pf (frames (t :: ts)) s)
      with (run pf (frames ts) (updatePhysics t s)).
    apply IH; try assumption.
    now apply frame_at_rest. }
  apply I; try reflexivity.
  now apply frame_at_rest.
Qed.

Section Endpoints.
Context {A : Type} `{Number A}.
Local Open Scope num_scope.

Lemma rig_of_updatePhysics (r : Readings A) (currentTime : A) (s : Sim A) :
  rig_of r (points s) -> rig_of r (points (updatePhysics currentTime s)).
Proof.
  intros (P1 & P2 & E & F1 & F2). rewrite points_updatePhysics.
  cbv [applyInput]. rewrite E.
  destruct (mode s); [ | destruct (gyroActive s) ]; cbn [call_at map];
    rewrite !(update_fixed _ (SpringPoint.new _ _ true)) by reflexivity;
    eexists; eexists; (split; [ reflexivity | ]);
    rewrite !fixed_update; cbn [SpringPoint.setTarget SpringPoint.fixed];
    now split.
Qed.

Lemma rig_of_effect (pf : Platform) (m : Mode) (fps0 : A) (r : Readings A) :
  rig_of r (points (effect pf m fps0 r)).
Proof.
  apply rig_of_updatePhysics. rewrite points_setup.
  eexists; eexists. split; [ reflexivity | now split ].
Qed.

Lemma rig_of_step (pf : Platform) (r : Readings A) (s : Sim A) (ev : Event A) :
  reruns_effect ev = false ->
  rig_of r (points s) -> rig_of r (points (step pf s ev)).
Proof.
  intros N R0. destruct ev; cbn [reruns_effect step] in *;
    try discriminate; try exact R0.
  - now apply rig_of_updatePhysics.
  - now destruct (orientationListener s).
Qed.

End Endpoints.

(** X9.  Between two runs of the effect the two end points never change:
    whatever frames, mouse moves, orientation events and resizes occur, P0 and
    P3 are the points the constructor made from the canvas size read when the
    effect ran, fixed, at [(0.2 w, 0.5 h)] and [(0.8 w, 0.5 h)] with no
    velocity, and P1 and P2 stay not fixed.  A resize does not move the end
    points to the anchors of the new size. *)
Theorem endpoints_stay {A : Type} `{Number A} (pf : Platform) (m : Mode)
        (fps0 : A) (r : Readings A) (evs : list (Event A)) :
  forallb (fun ev => negb (reruns_effect ev)) evs = true ->
  exists P1 P2,
    points (run pf evs (effect pf m fps0 r))
    = [ SpringPoint.new (offsetWidth r * dec 2 10)%num
                        (offsetHeight r * dec 5 10)%num true;
        P1; P2;
        SpringPoint.new (offsetWidth r * dec 8 10)%num
                        (offsetHeight r * dec 5 10)%num true ]
    /\ SpringPoint.fixed P1 = false /\ SpringPoint.fixed P2 = false.
Proof.
  intros N. change (rig_of r (points (run pf evs (effect pf m fps0 r)))).
  pose proof (rig_of_effect pf m fps0 r) as R0.
  revert R0 N. generalize (effect pf m fps0 r).
  induction evs as [ | ev evs IH ]; intros s R0 N; [ exact R0 | ].
  cbn [forallb] in N. apply andb_prop in N. destruct N as [N1 N2].
  apply negb_true_iff in N1.
  change (run pf (ev :: evs) s) with (run pf evs (step pf s ev)).
  apply IH; [ now apply rig_of_step | exact N2 ].
Qed.

(** X9 on a session with a mouse move, a frame, a resize to 800 by 600 and
    another frame. *)
Lemma endpoints_stay_witness :
  exists P1 P2,
    points (run gated_platform
                [ MouseMove 900 400 0 0; AnimationFrame 16;
                  WindowResize 800 600; AnimationFrame 32 ]
                (effect gated_platform mouse 60 (demo_readings 0)))
    = [ SpringPoint.new (1000 * (2 / 10)) (500 * (5 / 10)) true; P1; P2;
        SpringPoint.new (1000 * (8 / 10)) (500 * (5 / 10)) true ]
    /\ SpringPoint.fixed P1 = false /\ SpringPoint.fixed P2 = false.
Proof.
  exact (endpoints_stay gated_platform mouse 60 (demo_readings 0)
           [ MouseMove 900 400 0 0; AnimationFrame 16;
             WindowResize 800 600; AnimationFrame 32 ] eq_refl).
Defined.

(** X10.  In mouse mode, with the mouse on the canvas, a frame gives P1 and
    P2 targets on the canvas: P1 in the rectangle from [(0.25 w, 0.15 h)] to
    [(0.55 w, 0.45 h)] and P2 in the one from [(0.45 w, 0.55 h)] to
    [(0.75 w, 0.85 h)]. *)
Theorem mouse_targets_on_canvas (currentTime : R) (s : Sim R)
        (P0 P1 P2 P3 : SpringPoint R) :
  points s = [P0; P1; P2; P3] -> mode s = mouse ->
  0 <= Vector2.x (mousePos s) <= width s ->
  0 <= Vector2.y (mousePos s) <= height s ->
  exists Q0 Q1 Q2 Q3,
    points (updatePhysics currentTime s) = [Q0; Q1; Q2; Q3]
    /\ 25 / 100 * width s <= Vector2.x (SpringPoint.target Q1)
       <= 55 / 100 * width s
    /\ 15 / 100 * height s <= Vector2.y (SpringPoint.target Q1)
       <= 45 / 100 * height s
    /\ 45 / 100 * width s <= Vector2.x (SpringPoint.target Q2)
       <= 75 / 100 * width s
    /\ 55 / 100 * height s <= Vector2.y (SpringPoint.target Q2)
       <= 85 / 100 * height s
    /\ 0 <= Vector2.x (SpringPoint.target Q1) <= width s
    /\ 0 <= Vector2.y (SpringPoint.target Q1) <= height s
    /\ 0 <= Vector2.x (SpringPoint.target Q2) <= width s
    /\ 0 <= Vector2.y (SpringPoint.target Q2) <= height s.
Proof.
  intros E M Hx Hy.
  destruct (targets_updatePhysics currentTime s E)
    as (Q0 & Q1 & Q2 & Q3 & EQ & _ & _ & T).
  cbv [offsets assigned] in T. rewrite M in T. injection T as T1 T2.
  exists Q0, Q1, Q2, Q3. split; [ exact EQ | ].
  rewrite T1, T2. at_R; cbn [Vector2.x Vector2.y]. repeat split; lra.
Qed.

(** X10 with the mouse at [(900, 400)] on a canvas of 1000 by 500. *)
Lemma mouse_targets_on_canvas_witness :
  exists Q0 Q1 Q2 Q3,
    points (updatePhysics 32 (pointer_session (A := R))) = [Q0; Q1; Q2; Q3]
    /\ 0 <= Vector2.x (SpringPoint.target Q1) <= 1000
    /\ 0 <= Vector2.y (SpringPoint.target Q1) <= 500
    /\ 0 <= Vector2.x (SpringPoint.target Q2) <= 1000
    /\ 0 <= Vector2.y (SpringPoint.target Q2) <= 500.
Proof.
  destruct (four_points (points (pointer_session (A := R))))
    as (P0 & P1 & P2 & P3 & E).
  { apply length_points_run, length_points_effect. }
  assert (Hx : 0 <= Vector2.x (mousePos (pointer_session (A := R)))
               <= width (pointer_session (A := R))).
  { cbn. lra. }
  assert (Hy : 0 <= Vector2.y (mousePos (pointer_session (A := R)))
               <= height (pointer_session (A := R))).
  { cbn. lra. }
  destruct (mouse_targets_on_canvas 32 (pointer_session (A := R)) E eq_refl
              Hx Hy)
    as (Q0 & Q1 & Q2 & Q3 & EQ & _ & _ & _ & _ & X1 & Y1 & X2 & Y2).
  exists Q0, Q1, Q2, Q3. split; [ exact EQ | ].
  cbn [width height pointer_session] in X1, Y1, X2, Y2.
  repeat split; first [ apply X1 | apply Y1 | apply X2 | apply Y2 ].
Defined.

(** X11.  In gyro mode with a sample, a frame puts the targets of P1 and P2
    at their anchors moved by [(gamma / 90 * 150, (beta - 90) / 90 * 150)],
    one way for P1 and the other way for P2.  A device held upright
    ([beta = 90], [gamma = 0]) gives the anchors themselves.  Over the ranges
    the source notes for the angles, [beta] from -180 to 180 and [gamma] from
    -90 to 90, the targets are at most 150 to either side of the anchors, but
    up to 450 above (P1) or below (P2) them and at most 150 the other way:
    they can leave a canvas less than 1500 high. *)
Theorem gyro_targets (currentTime : R) (s : Sim R)
        (P0 P1 P2 P3 : SpringPoint R) :
  points s = [P0; P1; P2; P3] -> mode s = gyro -> gyroActive s = true ->
  exists Q0 Q1 Q2 Q3,
    points (updatePhysics currentTime s) = [Q0; Q1; Q2; Q3]
    /\ SpringPoint.target Q1
       = Vector2.new
           (width s * (4 / 10) + gamma (gyroData s) / 90 * 150)
           (height s * (3 / 10) + (beta (gyroData s) - 90) / 90 * 150)
    /\ SpringPoint.target Q2
       = Vector2.new
           (width s * (6 / 10) - gamma (gyroData s) / 90 * 150)
           (height s * (7 / 10) - (beta (gyroData s) - 90) / 90 * 150)
    /\ (beta (gyroData s) = 90 -> gamma (gyroData s) = 0 ->
        SpringPoint.target Q1
        = Vector2.new (width s * (4 / 10)) (height s * (3 / 10))
        /\ SpringPoint.target Q2
           = Vector2.new (width s * (6 / 10)) (height s * (7 / 10)))
    /\ (-180 <= beta (gyroData s) <= 180 -> -90 <= gamma (gyroData s) <= 90 ->
        width s * (4 / 10) - 150 <= Vector2.x (SpringPoint.target Q1)
        <= width s * (4 / 10) + 150
        /\ height s * (3 / 10) - 450 <= Vector2.y (SpringPoint.target Q1)
           <= height s * (3 / 10) + 150
        /\ width s * (6 / 10) - 150 <= Vector2.x (SpringPoint.target Q2)
           <= width s * (6 / 10) + 150
        /\ height s * (7 / 10) - 150 <= Vector2.y (SpringPoint.target Q2)
           <= height s * (7 / 10) + 450).
Proof.
  intros E M G.
  destruct (targets_updatePhysics currentTime s E)
    as (Q0 & Q1 & Q2 & Q3 & EQ & _ & _ & T).
  cbv [offsets assigned] in T. rewrite M, G in T. injection T as T1 T2.
  exists Q0, Q1, Q2, Q3. split; [ exact EQ | ].
  rewrite T1, T2. at_R.
  split; [ reflexivity | ]. split; [ reflexivity | ]. split.
  - intros -> ->. split; f_equal; field.
  - intros Hb Hg. cbn [Vector2.x Vector2.y]. repeat split; lra.
Qed.

(** X11 on the tilted session: [beta = 45], [gamma = 30]. *)
Lemma gyro_targets_witness :
  exists Q0 Q1 Q2 Q3,
    points (updatePhysics 48 (tilted_session (A := R))) = [Q0; Q1; Q2; Q3]
    /\ SpringPoint.target Q1
       = Vector2.new (1000 * (4 / 10) + 30 / 90 * 150)
                     (500 * (3 / 10) + (45 - 90) / 90 * 150).
Proof.
  destruct (four_points (points (tilted_session (A := R))))
    as (P0 & P1 & P2 & P3 & E).
  { apply length_points_run, length_points_effect. }
  destruct (gyro_targets 48 (tilted_session (A := R)) E eq_refl eq_refl)
    as (Q0 & Q1 & Q2 & Q3 & EQ & T1 & _).
  exists Q0, Q1, Q2, Q3. split; [ exact EQ | ].
  rewrite T1. cbn. f_equal; f_equal; f_equal; f_equal.
  all: unfold Req_bool; destruct (Req_dec_T _ 0); cbn; lra.
Defined.

(** X12.  An orientation event whose angles are all [null] counts as a
    sample: it sets [gyroActive] and stores zeros, and the next frame in gyro
    mode moves the targets of P1 and P2 to 150 above and 150 below their
    anchors, as for a device lying flat. *)
Theorem orientation_without_angles (currentTime : R) (s : Sim R)
        (P0 P1 P2 P3 : SpringPoint R) :
  points s = [P0; P1; P2; P3] -> mode s = gyro ->
  let s' := handleOrientation (Build_OrientationEvent None None None) s in
  gyroActive s' = true
  /\ gyroData s' = Build_GyroData 0 0 0
  /\ inner_targets (updatePhysics currentTime s')
     = Some (Vector2.new (width s * (4 / 10)) (height s * (3 / 10) - 150),
             Vector2.new (width s * (6 / 10)) (height s * (7 / 10) + 150)).
Proof.
  intros E M. cbv zeta.
  split; [ reflexivity | ]. split; [ reflexivity | ].
  set (s' := handleOrientation (Build_OrientationEvent None None None) s).
  assert (E' : points s' = [P0; P1; P2; P3]) by exact E.
  destruct (targets_updatePhysics currentTime s' E')
    as (Q0 & Q1 & Q2 & Q3 & EQ & _ & _ & T).
  cbv [offsets assigned] in T.
  change (mode s') with (mode s) in T. rewrite M in T.
  change (gyroActive s') with true in T. injection T as T1 T2.
  cbv [inner_targets]. rewrite EQ, T1, T2.
  subst s'. cbv [handleOrientation or_zero]; cbn [gyroData beta gamma width height].
  at_R. f_equal. f_equal; f_equal; field.
Qed.

(** X12 on the component just switched to gyro mode. *)
Lemma orientation_without_angles_witness :
  inner_targets
    (updatePhysics 64
       (handleOrientation (Build_OrientationEvent None None None)
                          (switched_session (A := R))))
  = Some (Vector2.new (1000 * (4 / 10)) (500 * (3 / 10) - 150),
          Vector2.new (1000 * (6 / 10)) (500 * (7 / 10) + 150)).
Proof.
  destruct (four_points (points (switched_session (A := R))))
    as (P0 & P1 & P2 & P3 & E).
  { apply length_points_run.
    cbv [setMode]. cbn [Mode_eqb mode pointer_session].
    apply length_points_effect. }
  exact (proj2 (proj2 (orientation_without_angles 64
                         (switched_session (A := R)) E eq_refl))).
Defined.

(** A frame before the counting window is a second old counts and publishes
    nothing. *)
Lemma frame_counts (currentTime : R) (s : Sim R) :
  currentTime - fpsTime s < 1000 ->
  fps (updatePhysics currentTime s) = fps s
  /\ frameCount (updatePhysics currentTime s) = frameCount s + 1
  /\ fpsTime (updatePhysics currentTime s) = fpsTime s.
Proof.
  intros L. cbv [updatePhysics]; cbn [fps frameCount fpsTime]; at_R.
  replace (Rge_bool (currentTime - fpsTime s) 1000) with false;
    [ now repeat split | ].
  symmetry. now apply Rge_bool_false.
Qed.

(** X13.  The number published as [fps] is the number of frames since the
    counter was last reset, the publishing frame included.  Frames that come
    less than 1000 ms after the start of the window each add one to the
    counter and publish nothing; the first frame 1000 ms or more after it
    publishes the counter plus one, resets the counter to zero and starts the
    next window at its own time stamp. *)
Theorem fps_counts_frames (pf : Platform) (s : Sim R) (ts : list R)
        (currentTime : R) :
  Forall (fun t => t - fpsTime s < 1000) ts ->
  1000 <= currentTime - fpsTime s ->
  let s1 := run pf (frames ts) s in
  let s2 := updatePhysics currentTime s1 in
  fps s1 = fps s
  /\ frameCount s1 = frameCount s + INR (length ts)
  /\ fpsTime s1 = fpsTime s
  /\ fps s2 = frameCount s + INR (length ts) + 1
  /\ frameCount s2 = 0
  /\ fpsTime s2 = currentTime.
Proof.
  intros F L. cbv zeta.
  assert (I : fps (run pf (frames ts) s) = fps s
              /\ frameCount (run pf (frames ts) s)
                 = frameCount s + INR (length ts)
              /\ fpsTime (run pf (frames ts) s) = fpsTime s).
  { clear L. revert s F. induction ts as [ | t ts IH ]; intros s F.
    - cbn [frames map run fold_left length INR]. repeat split. ring.
    - inversion F as [ | t0 ts0 Ft Fts ]; subst.
      destruct (@frame_counts t s Ft) as (E1 & E2 & E3).
      change (run pf (frames (t :: ts)) s)
        with (run pf (frames ts) (updatePhysics t s)).
      destruct (IH (updatePhysics t s)) as (I1 & I2 & I3).
      { rewrite E3. exact Fts. }
      rewrite I1, I2, I3, E1, E2, E3.
      change (length (t :: ts)) with (S (length ts)). rewrite S_INR.
      repeat split. ring. }
  destruct I as (I1 & I2 & I3).
  split; [ exact I1 | ]. split; [ exact I2 | ]. split; [ exact I3 | ].
  cbv [updatePhysics]; cbn [fps frameCount fpsTime]; at_R.
  rewrite I2, I3.
  replace (Rge_bool (currentTime - fpsTime s) 1000) with true;
    [ now repeat split | ].
  symmetry. now apply Rge_bool_true.
Qed.

(** X13 after the mount at time 0, whose effect runs the first frame: three
    more frames and the frame at 1000 ms publish 5. *)
Lemma fps_counts_frames_witness :
  let s := effect open_platform mouse 60 (demo_readings 0) in
  let s2 := updatePhysics 1000 (run open_platform (frames [16; 33; 50]) s) in
  Forall (fun t => t - fpsTime s < 1000) [16; 33; 50]
  /\ 1000 <= 1000 - fpsTime s
  /\ fps s2 = frameCount s + INR 3 + 1
  /\ frameCount s2 = 0.
Proof.
  cbv zeta.
  assert (Z : fpsTime (effect open_platform mouse 60 (demo_readings 0)) = 0).
  { cbv [effect updatePhysics setup demo_readings]; cbn [fpsTime now_fpsTime
      now_first]; at_R.
    replace (Rge_bool (0 - 0) 1000) with false; [ reflexivity | ].
    symmetry. apply Rge_bool_false. lra. }
  assert (F : Forall (fun t => t - fpsTime (effect open_platform mouse 60
                                              (demo_readings 0)) < 1000)
                     [16; 33; 50]).
  { rewrite Z. repeat constructor; lra. }
  assert (L : 1000 <= 1000 - fpsTime (effect open_platform mouse 60
                                        (demo_readings 0))).
  { rewrite Z. lra. }
  split; [ exact F | ]. split; [ exact L | ].
  pose proof (fps_counts_frames open_platform
                (effect open_platform mouse 60 (demo_readings 0)) F L) as W.
  cbv zeta in W. destruct W as (_ & _ & _ & W1 & W2 & _).
  split; [ exact W1 | exact W2 ].
Defined.

(** ** The component around the effect *)

Section Wiring.
Context {A : Type} `{Number A}.

Lemma wired_runEffect (pf : Platform) (m : Mode) (r : Readings A)
      (c : Component A) :
  wired pf c ->
  (m = gyro -> hasDeviceOrientation pf && hasRequestPermission pf = true) ->
  wired pf (runEffect pf m r c).
Proof.
  intros (W1 & W2 & W3 & W4 & W5 & W6) Mg.
  cbv [wired runEffect effect];
    cbn [sim gyroSupported gyroPermission awaiting].
  split; [ reflexivity | ]. split; [ discriminate | ].
  split; [ | split; [ | split ] ].
  - destruct (hasDeviceOrientation pf); [ reflexivity | exact W3 ].
  - destruct (hasDeviceOrientation pf && hasRequestPermission pf);
      [ reflexivity | exact W4 ].
  - exact W5.
  - exact Mg.
Qed.

Lemma wired_mount (pf : Platform) (r : Readings A) : wired pf (mount pf r).
Proof.
  cbv [wired mount effect]; cbn [sim gyroSupported gyroPermission awaiting].
  split; [ reflexivity | ]. split; [ discriminate | ].
  split; [ now destruct (hasDeviceOrientation pf) | ].
  split; [ | split; [ tauto | discriminate ] ].
  destruct (hasDeviceOrientation pf && hasRequestPermission pf); tauto.
Qed.

Lemma wired_withSim (pf : Platform) (c : Component A) (ev : Event A) :
  reruns_effect ev = false ->
  wired pf c -> wired pf (withSim (step pf (sim c) ev) c).
Proof.
  intros N (W1 & W2 & W3 & W4 & W5 & W6).
  cbv [wired withSim]; cbn [sim gyroSupported gyroPermission awaiting].
  assert (L : orientationListener (step pf (sim c) ev)
              = orientationListener (sim c)).
  { destruct ev; cbn [reruns_effect step] in *; try discriminate;
      try reflexivity.
    destruct (orientationListener (sim c)) eqn:E; [ | exact E ].
    cbv [handleOrientation]; cbn [orientationListener]. exact E. }
  rewrite L, (mode_step pf (sim c) ev N).
  split; [ exact W1 | ]. split; [ | now repeat split ].
  destruct ev; cbn [reruns_effect step] in *; try discriminate;
    try exact W2.
  destruct (orientationListener (sim c)); [ intros _; reflexivity | exact W2 ].
Qed.

Lemma wired_changeMode (pf : Platform) (m : Mode) (r : Readings A)
      (c : Component A) :
  wired pf c ->
  (m = gyro -> hasDeviceOrientation pf && hasRequestPermission pf = true) ->
  wired pf (changeMode pf m r c).
Proof.
  intros W Mg. cbv [changeMode].
  destruct (Mode_eqb m (mode (sim c))); [ exact W | ].
  now apply wired_runEffect.
Qed.

Lemma wired_setGyroPermission (pf : Platform) (p : Permission)
      (c : Component A) :
  wired pf c ->
  hasDeviceOrientation pf && hasRequestPermission pf = true ->
  wired pf (setGyroPermission p c).
Proof.
  intros (W1 & W2 & W3 & W4 & W5 & W6) G.
  cbv [wired setGyroPermission];
    cbn [sim gyroSupported gyroPermission awaiting].
  now repeat split.
Qed.

Lemma wired_withAwaiting (pf : Platform) (n : nat) (c : Component A) :
  wired pf c ->
  hasDeviceOrientation pf && hasRequestPermission pf = true ->
  wired pf (withAwaiting n c).
Proof.
  intros (W1 & W2 & W3 & W4 & W5 & W6) G.
  cbv [wired withAwaiting];
    cbn [sim gyroSupported gyroPermission awaiting].
  now repeat split.
Qed.

Lemma Permission_eqb_eq (p q : Permission) :
  Permission_eqb p q = true -> p = q.
Proof. now destruct p, q. Qed.

Lemma wired_act (pf : Platform) (c : Component A) (a : Action A) :
  wired pf c -> wired pf (act pf c a).
Proof.
  intros W. destruct a; cbn [act];
    try (now apply wired_withSim).
  - apply wired_changeMode; [ exact W | discriminate ].
  - destruct (gyroSupported c && Permission_eqb (gyroPermission c) needed)
      eqn:B; [ | exact W ].
    apply andb_prop in B. destruct B as [_ B].
    apply Permission_eqb_eq in B.
    assert (G : hasDeviceOrientation pf && hasRequestPermission pf = true).
    { destruct W as (_ & _ & _ & W4 & _). apply W4. rewrite B. discriminate. }
    cbv [requestGyroPermission].
    destruct (hasRequestPermission pf) eqn:Hr; [ | exact W ].
    apply wired_withAwaiting; [ exact W | ]. now rewrite Hr.
  - destruct (awaiting c) as [ | n ] eqn:P; [ exact W | ].
    assert (G : hasDeviceOrientation pf && hasRequestPermission pf = true).
    { destruct W as (_ & _ & _ & _ & W5 & _). apply W5. rewrite P.
      discriminate. }
    pose proof (wired_withAwaiting n W G) as Wn.
    destruct o; cbn [requestGyroPermission_resumes].
    + apply wired_changeMode;
        [ now apply wired_setGyroPermission | now intros _ ].
    + now apply wired_setGyroPermission.
    + now apply wired_setGyroPermission.
  - destruct (gyroSupported c && Permission_eqb (gyroPermission c) granted)
      eqn:B; [ | exact W ].
    apply andb_prop in B. destruct B as [_ B].
    apply Permission_eqb_eq in B.
    apply wired_changeMode; [ exact W | intros _ ].
    destruct W as (_ & _ & _ & W4 & _). apply W4. rewrite B. discriminate.
  - apply wired_runEffect.
    + destruct W as (W1 & W2 & W3 & W4 & W5 & W6). now repeat split.
    + destruct W as (_ & _ & _ & _ & _ & W6). exact W6.
  - apply wired_runEffect.
    + destruct W as (W1 & W2 & W3 & W4 & W5 & W6). now repeat split.
    + destruct W as (_ & _ & _ & _ & _ & W6). exact W6.
Qed.

Lemma wired_play (pf : Platform) (acts : list (Action A)) (c : Component A) :
  wired pf c -> wired pf (play pf acts c).
Proof.
  revert c. induction acts as [ | a acts IH ]; intros c W; [ exact W | ].
  change (play pf (a :: acts) c) with (play pf acts (act pf c a)).
  now apply IH, wired_act.
Qed.

(** X14.  Through the buttons of the component, the device orientation never
    drives the curve.  The mode becomes [gyro] only when a permission request
    is granted or on a click on Gyro Mode, and the buttons that lead there
    are rendered only on a browser with [requestPermission]; there the effect
    does not register [handleOrientation].  So in every state the component
    can reach from its mount, on any browser and after any events and clicks,
    if the mode is [gyro] then no orientation listener is registered, no
    sample has been received, and a frame leaves every target as it is. *)
Theorem gyro_never_drives (pf : Platform) (r : Readings A)
        (acts : list (Action A)) (currentTime : A) :
  let c := play pf acts (mount pf r) in
  mode (sim c) = gyro ->
  orientationListener (sim c) = false
  /\ gyroActive (sim c) = false
  /\ map SpringPoint.target (points (updatePhysics currentTime (sim c)))
     = map SpringPoint.target (points (sim c)).
Proof.
  cbv zeta. intros M.
  destruct (@wired_play pf acts _ (@wired_mount pf r))
    as (W1 & W2 & _ & _ & _ & W6).
  specialize (W6 M). apply andb_prop in W6. destruct W6 as [Hd Hr].
  rewrite Hd, Hr in W1. cbn in W1.
  assert (G : gyroActive (sim (play pf acts (mount pf r))) = false).
  { destruct (gyroActive (sim (play pf acts (mount pf r)))); [ | reflexivity ].
    rewrite W2 in W1 by reflexivity. discriminate. }
  split; [ exact W1 | ]. split; [ exact G | ].
  rewrite points_updatePhysics, targets_map_update.
  now rewrite applyInput_idle.
Qed.

End Wiring.

(** X14 on a browser with [requestPermission]: the user enables the gyro,
    the permission is granted, the device reports a tilt and a frame runs.
    The new run of the effect has set the permission back to ['needed']. *)
Lemma gyro_never_drives_witness :
  let c := play gated_platform
                [ ClickEnableGyro;
                  RequestSettles resolves_granted (demo_readings 16);
                  Orientation (Build_OrientationEvent (Some 45) (Some 30) None);
                  Tick 32 ]
                (mount gated_platform (demo_readings 0)) in
  mode (sim c) = gyro
  /\ gyroPermission c = needed
  /\ gyroActive (sim c) = false
  /\ map SpringPoint.target (points (updatePhysics 48 (sim c)))
     = map SpringPoint.target (points (sim c)).
Proof.
  cbv zeta. split; [ reflexivity | ]. split; [ reflexivity | ].
  pose proof (gyro_never_drives gated_platform (demo_readings 0)
                [ ClickEnableGyro;
                  RequestSettles resolves_granted (demo_readings 16);
                  Orientation (Build_OrientationEvent (Some 45) (Some 30)
                                                      None);
                  Tick 32 ] 48 eq_refl) as W.
  cbv zeta in W. destruct W as (_ & G & T).
  split; [ exact G | exact T ].
Defined.

(** ** What is drawn *)

Lemma bezierPoint_in_box (t : R) (p0 p1 p2 p3 : Vector2 R) :
  0 <= t <= 1 -> in_box p0 p1 p2 p3 (bezierPoint t p0 p1 p2 p3).
Proof.
  intros Ht. destruct (bernstein_weights Ht) as (W0 & W1 & W2 & W3 & S).
  destruct p0 as [x0 y0], p1 as [x1 y1], p2 as [x2 y2], p3 as [x3 y3].
  cbv [in_box bezierPoint]; at_R; cbn [Vector2.x Vector2.y].
  split; now apply convex_between.
Qed.

Lemma positions_four {A : Type} (P0 P1 P2 P3 : SpringPoint A) :
  positions [P0; P1; P2; P3]
  = Some (SpringPoint.position P0, SpringPoint.position P1,
          SpringPoint.position P2, SpringPoint.position P3).
Proof. reflexivity. Qed.

Lemma vertex_curvePath (steps : nat) (p0 p1 p2 p3 : Vector2 R)
      (c : PathCmd R) :
  In c (curvePath steps p0 p1 p2 p3) ->
  exists i : nat,
    (i <= steps)%nat
    /\ vertex c
       = bezierPoint (IZR (Z.of_nat i) / IZR (Z.of_nat steps)) p0 p1 p2 p3.
Proof.
  cbv [curvePath]. intros I. apply in_map_iff in I.
  destruct I as (i & E & I). apply in_seq in I. exists i.
  split; [ lia | ]. subst c. at_R.
  destruct (bezierPoint (IZR (Z.of_nat i) / IZR (Z.of_nat steps)) p0 p1 p2 p3)
    as [a b].
  now destruct (Nat.eqb i 0).
Qed.

(** X15.  In every state the component reaches, [drawCurve] strokes one
    connected polyline of 101 vertices: a single [moveTo], at the position of
    [P0], followed by 100 [lineTo], the last at the position of [P3]; and
    every vertex lies in the bounding box of the four current positions. *)
Theorem drawCurve_polyline (pf : Platform) (m : Mode) (fps0 : R)
        (r : Readings R) (evs : list (Event R)) :
  let s := run pf evs (effect pf m fps0 r) in
  exists (P0 P1 P2 P3 : SpringPoint R) (path : list (PathCmd R)),
    points s = [P0; P1; P2; P3]
    /\ drawCurve (points s)
       = Some [ set_strokeStyle "#3b82f6"%string;
                set_lineWidth 3;
                set_shadowColor "rgba(59, 130, 246, 0.5)"%string;
                set_shadowBlur 10;
                ctx_stroke_path path;
                set_shadowBlur 0 ]
    /\ length path = 101%nat
    /\ hd_error path
       = Some (moveTo (Vector2.x (SpringPoint.position P0))
                      (Vector2.y (SpringPoint.position P0)))
    /\ last path (moveTo 0 0)
       = lineTo (Vector2.x (SpringPoint.position P3))
                (Vector2.y (SpringPoint.position P3))
    /\ (forall c, In c (tl path) -> exists x y, c = lineTo x y)
    /\ (forall c, In c path ->
        in_box (SpringPoint.position P0) (SpringPoint.position P1)
               (SpringPoint.position P2) (SpringPoint.position P3)
               (vertex c)).
Proof.
  cbv zeta.
  destruct (four_points (points (run pf evs (effect pf m fps0 r)))
              (length_points_run pf evs _ (length_points_effect pf m fps0 r)))
    as (P0 & P1 & P2 & P3 & E).
  exists P0, P1, P2, P3,
    (curvePath 100 (SpringPoint.position P0) (SpringPoint.position P1)
               (SpringPoint.position P2) (SpringPoint.position P3)).
  rewrite E. split; [ reflexivity | ].
  split; [ cbv [drawCurve]; rewrite positions_four; reflexivity | ].
  destruct (SpringPoint.position P0) as [x0 y0],
           (SpringPoint.position P1) as [x1 y1],
           (SpringPoint.position P2) as [x2 y2],
           (SpringPoint.position P3) as [x3 y3].
  split; [ cbv [curvePath]; now rewrite length_map, length_seq | ].
  split; [ | split; [ | split ] ].
  - cbv [curvePath]. change (seq 0 101) with (0%nat :: seq 1 100).
    cbn [map hd_error Nat.eqb]. cbv [bezierPoint].
    change (Z.of_nat 0) with 0%Z. change (Z.of_nat 100) with 100%Z.
    at_R; cbn [Vector2.x Vector2.y]. do 2 f_equal; field.
  - cbv [curvePath]. rewrite seq_S, map_app. cbn [map].
    rewrite last_last. change (Nat.eqb (0 + 100) 0) with false.
    cbv [bezierPoint].
    change (Z.of_nat (0 + 100)) with 100%Z.
    change (Z.of_nat 100) with 100%Z.
    at_R; cbn [Vector2.x Vector2.y]. f_equal; field.
  - cbv [curvePath]. change (seq 0 101) with (0%nat :: seq 1 100).
    cbn [map tl]. intros c I. apply in_map_iff in I.
    destruct I as (i & Ec & I). apply in_seq in I.
    destruct i as [ | i ]; [ lia | ]. cbn [Nat.eqb] in Ec. subst c.
    eexists; eexists; reflexivity.
  - intros c I. apply vertex_curvePath in I. destruct I as (i & L & ->).
    apply bezierPoint_in_box.
    assert (B : 0 <= IZR (Z.of_nat i) <= 100).
    { split; [ apply (IZR_le 0); lia | apply (IZR_le _ 100); lia ]. }
    change (Z.of_nat 100) with 100%Z. lra.
Qed.

(** In binary64 too the polyline starts at [P0] and ends at [P3]: on the rig
    of a 1000 by 500 canvas, after a mouse move and three frames. *)
Remark drawCurve_binary64 :
  let s := run open_platform
               [ MouseMove 900 400 0 0; AnimationFrame 16; AnimationFrame 33;
                 AnimationFrame 50 ]%float
               (effect open_platform mouse 60%float (demo_readings 0)) in
  match drawCurve (points s), points s with
  | Some [ _; _; _; _; ctx_stroke_path path; _ ], [ P0; _; _; P3 ] =>
      hd_error path
      = Some (moveTo (Vector2.x (SpringPoint.position P0))
                     (Vector2.y (SpringPoint.position P0)))
      /\ last path (moveTo 0%float 0%float)
         = lineTo (Vector2.x (SpringPoint.position P3))
                  (Vector2.y (SpringPoint.position P3))
      /\ length path = 101%nat
  | _, _ => False
  end.
Proof. vm_compute. repeat split. Qed.

(** [Math.atan2] inverts the pair of cosine and sine on unit vectors. *)
Lemma atan2_unit (x y : R) :
  x * x + y * y = 1 -> cos (atan2_R y x) = x /\ sin (atan2_R y x) = y.
Proof.
  intros U. cbv [atan2_R].
  assert (Q : forall x, x <> 0 -> x * x + y * y = 1 ->
                        1 + (y / x)² = (/ x)²).
  { intros z Z Uz. unfold Rsqr.
    transitivity ((z * z + y * y) * (/ z * / z)); [ now field | ].
    rewrite Uz. ring. }
  destruct (Rlt_dec 0 x) as [ Px | Px ].
  - assert (I : 0 < / x) by now apply Rinv_0_lt_compat.
    rewrite cos_atan, sin_atan, (Q x) by lra.
    rewrite sqrt_Rsqr by lra. split; field; lra.
  - destruct (Rlt_dec x 0) as [ Nx | Nx ].
    + assert (I : 0 < / - x) by (apply Rinv_0_lt_compat; lra).
      assert (S : sqrt (1 + (y / x)²) = / - x).
      { rewrite (Q x) by lra.
        replace ((/ x)²) with ((/ - x)²) by (unfold Rsqr; field; lra).
        apply sqrt_Rsqr. lra. }
      destruct (Rle_dec 0 y) as [ Py | Py ].
      * rewrite neg_cos, neg_sin, cos_atan, sin_atan, S.
        split; field; lra.
      * rewrite cos_minus, sin_minus, cos_PI, sin_PI, cos_atan, sin_atan, S.
        split; field; lra.
    + assert (x = 0) by lra. subst x.
      destruct (Rlt_dec 0 y) as [ Py | Py ].
      * rewrite cos_PI2, sin_PI2. split; [ reflexivity | nra ].
      * destruct (Rlt_dec y 0) as [ Ny | Ny ].
        -- rewrite cos_neg, sin_neg, cos_PI2, sin_PI2. split; [ lra | nra ].
        -- assert (y = 0) by lra. subst y. lra.
Qed.

Lemma atan2_origin : atan2_R 0 0 = 0.
Proof.
  cbv [atan2_R].
  destruct (Rlt_dec 0 0) as [ P | _ ]; [ lra | reflexivity ].
Qed.

Lemma normalize_unit (v : Vector2 R) :
  Vector2.length v <> 0 ->
  Vector2.x (Vector2.normalize v) * Vector2.x (Vector2.normalize v)
  + Vector2.y (Vector2.normalize v) * Vector2.y (Vector2.normalize v) = 1.
Proof.
  intros NE. pose proof (@length_normalize v NE) as L.
  cbv [Vector2.length] in L; at_R.
  cbn [Vector2.x Vector2.y] in L.
  apply (f_equal (fun z => z * z)) in L.
  rewrite sqrt_sqrt in L by apply sum_squares_nonneg. lra.
Qed.

Lemma length_polar (k a : R) :
  0 <= k -> Vector2.length (Vector2.new (k * cos a) (k * sin a)) = k.
Proof.
  intros K. cbv [Vector2.length]; at_R; cbn [Vector2.x Vector2.y].
  replace (k * cos a * (k * cos a) + k * sin a * (k * sin a))
    with (k * k * ((sin a)² + (cos a)²)) by (unfold Rsqr; ring).
  rewrite sin2_cos2, Rmult_1_r. now apply sqrt_square.
Qed.

(** X16.  Each tangent arrow of [drawTangents] is centred on the point of the
    curve it belongs to.  Where the derivative does not vanish the line is 40
    long and runs along the derivative, and the arrowhead is a triangle with
    its apex at the end of the line and two sides of length 8 placed
    symmetrically about the line, at 30 degrees from it, pointing back.
    Where the derivative vanishes the line shrinks to the point of the curve
    and the arrowhead is the one of a line to the right. *)
Theorem drawTangents_arrows (i : nat) (p0 p1 p2 p3 : Vector2 R) :
  let t := IZR (Z.of_nat i) / 12 in
  let point := bezierPoint t p0 p1 p2 p3 in
  let tangent := bezierTangent t p0 p1 p2 p3 in
  exists start end_ wing1 wing2 : Vector2 R,
    drawTangent 12 40 i p0 p1 p2 p3
    = [ ctx_beginPath;
        set_strokeStyle "#ef4444"%string;
        set_lineWidth 2;
        ctx_moveTo (Vector2.x start) (Vector2.y start);
        ctx_lineTo (Vector2.x end_) (Vector2.y end_);
        ctx_stroke;
        ctx_beginPath;
        set_fillStyle "#ef4444"%string;
        ctx_moveTo (Vector2.x end_) (Vector2.y end_);
        ctx_lineTo (Vector2.x wing1) (Vector2.y wing1);
        ctx_lineTo (Vector2.x wing2) (Vector2.y wing2);
        ctx_closePath;
        ctx_fill ]
    /\ Vector2.add start end_ = Vector2.multiply point 2
    /\ (Vector2.length tangent <> 0 ->
        Vector2.subtract end_ start
        = Vector2.multiply tangent (40 / Vector2.length tangent)
        /\ Vector2.length (Vector2.subtract end_ start) = 40
        /\ Vector2.length (Vector2.subtract end_ wing1) = 8
        /\ Vector2.length (Vector2.subtract end_ wing2) = 8
        /\ Vector2.add (Vector2.subtract end_ wing1)
                       (Vector2.subtract end_ wing2)
           = Vector2.multiply tangent (8 * sqrt 3 / Vector2.length tangent))
    /\ (Vector2.length tangent = 0 ->
        start = point /\ end_ = point
        /\ wing1 = Vector2.new (Vector2.x point - 4 * sqrt 3)
                               (Vector2.y point + 4)
        /\ wing2 = Vector2.new (Vector2.x point - 4 * sqrt 3)
                               (Vector2.y point - 4)).
Proof.
  cbv zeta.
  set (t := IZR (Z.of_nat i) / 12).
  set (point := bezierPoint t p0 p1 p2 p3).
  set (tangent := bezierTangent t p0 p1 p2 p3).
  set (u := Vector2.normalize tangent).
  set (a := atan2_R (Vector2.y u) (Vector2.x u)).
  exists (Vector2.subtract point (Vector2.multiply u (40 / 2))),
    (Vector2.add point (Vector2.multiply u (40 / 2))),
    (Vector2.new
       (Vector2.x (Vector2.add point (Vector2.multiply u (40 / 2)))
        - 8 * cos (a - PI / 6))
       (Vector2.y (Vector2.add point (Vector2.multiply u (40 / 2)))
        - 8 * sin (a - PI / 6))),
    (Vector2.new
       (Vector2.x (Vector2.add point (Vector2.multiply u (40 / 2)))
        - 8 * cos (a + PI / 6))
       (Vector2.y (Vector2.add point (Vector2.multiply u (40 / 2)))
        - 8 * sin (a + PI / 6))).
  split; [ reflexivity | ].
  split; [ destruct point as [px py], u as [ux uy]; vec_eq | ].
  split.
  - intros NE.
    pose proof (@normalize_unit tangent NE) as U. fold u in U.
    destruct (atan2_unit U) as [C S]. fold a in C, S.
    pose proof (@normalize_of_nonzero_length tangent NE) as N. fold u in N.
    pose proof (@length_normalize tangent NE) as L1. fold u in L1.
    assert (D : Vector2.subtract
                  (Vector2.add point (Vector2.multiply u (40 / 2)))
                  (Vector2.subtract point (Vector2.multiply u (40 / 2)))
                = Vector2.multiply u 40).
    { destruct point as [px py], u as [ux uy]; vec_eq. }
    split; [ | split; [ | split; [ | split ] ] ].
    + rewrite D, N. destruct tangent as [tx ty]. vec_eq; exact NE.
    + rewrite D, length_multiply by lra. rewrite L1. ring.
    + replace (Vector2.subtract _ _)
        with (Vector2.new (8 * cos (a - PI / 6)) (8 * sin (a - PI / 6)))
        by (destruct point as [px py], u as [ux uy]; vec_eq).
      apply length_polar. lra.
    + replace (Vector2.subtract _ _)
        with (Vector2.new (8 * cos (a + PI / 6)) (8 * sin (a + PI / 6)))
        by (destruct point as [px py], u as [ux uy]; vec_eq).
      apply length_polar. lra.
    + rewrite N in C, S; cbn [Vector2.x Vector2.y] in C, S.
      destruct point as [px py], tangent as [tx ty], u as [ux uy].
      cbv [Vector2.add Vector2.subtract Vector2.multiply]; at_R;
        cbn [Vector2.x Vector2.y] in *.
      rewrite cos_minus, cos_plus, sin_minus, sin_plus, cos_PI6, sin_PI6,
        C, S.
      f_equal; field; exact NE.
  - intros Z.
    pose proof (@normalize_of_zero_length tangent Z) as N. fold u in N.
    subst a. rewrite N. cbn [Vector2.x Vector2.y]. rewrite atan2_origin.
    destruct point as [px py].
    cbv [Vector2.add Vector2.subtract Vector2.multiply]; at_R;
      cbn [Vector2.x Vector2.y].
    rewrite cos_minus, cos_plus, sin_minus, sin_plus, cos_PI6, sin_PI6,
      cos_0, sin_0.
    repeat split; f_equal; field.
Qed.

(** X16 at the middle of the curve of the end-to-end scenario, where the
    derivative is [(150, 0)]. *)
Lemma drawTangents_arrows_witness :
  Vector2.length
    (bezierTangent (IZR (Z.of_nat 6) / 12) (Vector2.new 0 0)
                   (Vector2.new 0 100) (Vector2.new 100 100)
                   (Vector2.new 100 0)) <> 0
  /\ exists start end_ : Vector2 R,
      In (ctx_lineTo (Vector2.x end_) (Vector2.y end_))
         (drawTangent 12 40 6 (Vector2.new 0 0) (Vector2.new 0 100)
                      (Vector2.new 100 100) (Vector2.new 100 0))
      /\ Vector2.add start end_ = Vector2.multiply (Vector2.new 50 75) 2
      /\ Vector2.length (Vector2.subtract end_ start) = 40.
Proof.
  assert (NE : Vector2.length
                 (bezierTangent (IZR (Z.of_nat 6) / 12) (Vector2.new 0 0)
                                (Vector2.new 0 100) (Vector2.new 100 100)
                                (Vector2.new 100 0)) <> 0).
  { cbv [bezierTangent Vector2.length]. change (Z.of_nat 6) with 6%Z.
    at_R; cbn [Vector2.x Vector2.y].
    replace (_ + _) with (150 * 150) by field.
    rewrite sqrt_square; lra. }
  split; [ exact NE | ].
  destruct (drawTangents_arrows 6 (Vector2.new 0 0) (Vector2.new 0 100)
              (Vector2.new 100 100) (Vector2.new 100 0))
    as (start & end_ & wing1 & wing2 & E & M & G & _).
  destruct (G NE) as (_ & L & _).
  exists start, end_. split; [ rewrite E; cbn; tauto | ].
  split; [ | exact L ].
  rewrite M. f_equal. cbv [bezierPoint]. change (Z.of_nat 6) with 6%Z.
  vec_eq.
Defined.

(** ** The curve follows the pointer *)

Lemma setTarget_same (x y : R) (this : SpringPoint R) :
  SpringPoint.target this = Vector2.new x y ->
  SpringPoint.setTarget x y this = this.
Proof.
  destruct this as [pos vel tgt fx k d]. cbv [SpringPoint.setTarget]; fields.
  now intros ->.
Qed.

Lemma target_after (p T : Vector2 R) (n : nat) :
  SpringPoint.target (after n (released p T)) = T.
Proof.
  destruct (scaled_after p T n) as (c & w & Sc & _).
  destruct Sc as (_ & _ & Tg & _). exact Tg.
Qed.

(** A frame in mouse mode, 16.67 ms after the last one, on a rig of four with
    fixed ends: the inner points get their targets and one [update(1)]. *)
Lemma follow_frame (s : Sim R) (E0 X1 X2 E3 : SpringPoint R) :
  points s = [E0; X1; X2; E3] ->
  SpringPoint.fixed E0 = true -> SpringPoint.fixed E3 = true ->
  mode s = mouse ->
  points (updatePhysics (lastTime s + 1667 / 100) s)
  = [ E0;
      SpringPoint.update 1
        (SpringPoint.setTarget
           (width s * (4 / 10)
            + (Vector2.x (mousePos s) - width s / 2) * (3 / 10))
           (height s * (3 / 10)
            + (Vector2.y (mousePos s) - height s / 2) * (3 / 10)) X1);
      SpringPoint.update 1
        (SpringPoint.setTarget
           (width s * (6 / 10)
            - (Vector2.x (mousePos s) - width s / 2) * (3 / 10))
           (height s * (7 / 10)
            - (Vector2.y (mousePos s) - height s / 2) * (3 / 10)) X2);
      E3 ].
Proof.
  intros P F0 F3 M. rewrite points_updatePhysics. cbv [applyInput].
  rewrite M, P. cbn [call_at map].
  replace (deltaTime_of (lastTime s + 1667 / 100) (lastTime s)) with 1.
  - rewrite (update_fixed 1 E0 F0), (update_fixed 1 E3 F3). reflexivity.
  - cbv [deltaTime_of]; at_R.
    replace ((lastTime s + 1667 / 100 - lastTime s) / (1667 / 100)) with 1
      by (field; lra).
    symmetry. apply Rmin_left. lra.
Qed.

(** X17.  The mounted curve follows the pointer.  After the mount, a mouse
    move and frames that come 16.67 ms apart, the two inner control points
    have the targets the pointer determines, their anchors moved by 0.3 times
    the offset of the pointer from the centre of the canvas, one way for P1
    and the other way for P2, and each has approached its target
    geometrically: after [n] frames its
    distance to the target is between [0.7 ^ n] and [0.85 ^ n] times the
    distance it started from, which is 0.3 times the distance of the pointer
    from the centre. *)
Theorem pointer_followed (pf : Platform) (fps0 : R) (r : Readings R)
        (clientX clientY rectLeft rectTop : R) (n : nat) :
  let w := offsetWidth r in
  let h := offsetHeight r in
  let mouseX := clientX - rectLeft in
  let mouseY := clientY - rectTop in
  let ts :=
    map (fun k : nat => now_first r + 1667 / 100 * INR k) (seq 1 (S n)) in
  let s := run pf (MouseMove clientX clientY rectLeft rectTop :: frames ts)
               (effect pf mouse fps0 r) in
  let d0 :=
    3 / 10 * sqrt ((mouseX - w / 2) * (mouseX - w / 2)
                   + (mouseY - h / 2) * (mouseY - h / 2)) in
  exists P0 P1 P2 P3 : SpringPoint R,
    points s = [P0; P1; P2; P3]
    /\ SpringPoint.target P1
       = Vector2.new (w * (4 / 10) + (mouseX - w / 2) * (3 / 10))
                     (h * (3 / 10) + (mouseY - h / 2) * (3 / 10))
    /\ SpringPoint.target P2
       = Vector2.new (w * (6 / 10) - (mouseX - w / 2) * (3 / 10))
                     (h * (7 / 10) - (mouseY - h / 2) * (3 / 10))
    /\ (7 / 10) ^ S n * d0 <= distance P1 <= (85 / 100) ^ S n * d0
    /\ (7 / 10) ^ S n * d0 <= distance P2 <= (85 / 100) ^ S n * d0.
Proof.
  cbv zeta.
  set (w := offsetWidth r). set (h := offsetHeight r).
  set (mx := clientX - rectLeft). set (my := clientY - rectTop).
  set (p1 := Vector2.new (w * (4 / 10)) (h * (3 / 10))).
  set (p2 := Vector2.new (w * (6 / 10)) (h * (7 / 10))).
  set (T1 := Vector2.new (w * (4 / 10) + (mx - w / 2) * (3 / 10))
                         (h * (3 / 10) + (my - h / 2) * (3 / 10))).
  set (T2 := Vector2.new (w * (6 / 10) - (mx - w / 2) * (3 / 10))
                         (h * (7 / 10) - (my - h / 2) * (3 / 10))).
  set (E0 := SpringPoint.new (w * (2 / 10)) (h * (5 / 10)) true).
  set (E3 := SpringPoint.new (w * (8 / 10)) (h * (5 / 10)) true).
  set (f := fun k : nat => now_first r + 1667 / 100 * INR k).
  set (sm := handleMouseMove clientX clientY rectLeft rectTop
               (effect pf mouse fps0 r)).
  assert (I : let s := run pf (frames (map f (seq 1 (S n)))) sm in
              mode s = mouse /\ width s = w /\ height s = h
              /\ mousePos s = Vector2.new mx my
              /\ lastTime s = f (S n)
              /\ points s = [ E0; after (S n) (released p1 T1);
                              after (S n) (released p2 T2); E3 ]).
  { cbv zeta. induction n as [ | n IH ].
    - change (run pf (frames (map f (seq 1 1))) sm)
        with (updatePhysics (f 1%nat) sm).
      repeat (split; [ reflexivity | ]).
      replace (f 1%nat) with (lastTime sm + 1667 / 100)
        by (subst f sm; cbn [INR lastTime handleMouseMove effect
                               updatePhysics]; ring).
      rewrite (@follow_frame sm E0
                 (SpringPoint.new (w * (4 / 10)) (h * (3 / 10)) false)
                 (SpringPoint.new (w * (6 / 10)) (h * (7 / 10)) false) E3);
        try reflexivity.
      change (points sm)
        with (points (updatePhysics (now_first r) (setup pf mouse fps0 r))).
      rewrite (@frame_at_rest pf mouse fps0 r (now_first r)
                 (setup pf mouse fps0 r)) by reflexivity.
      rewrite points_setup. subst E0 E3 w h. at_R. reflexivity.
    - destruct IH as (M & W & Hh & Mp & L & P).
      rewrite seq_S, map_app. cbv [frames]. rewrite map_app, run_app.
      fold (frames (map f (seq 1 (S n)))).
      set (s := run pf (frames (map f (seq 1 (S n)))) sm) in *.
      change (run pf (map (@AnimationFrame R) (map f [(1 + S n)%nat])) s)
        with (updatePhysics (f (S (S n))) s).
      repeat (split; [ first [ reflexivity | assumption ] | ]).
      replace (f (S (S n))) with (lastTime s + 1667 / 100)
        by (rewrite L; subst f; cbv beta; rewrite (S_INR (S n)); ring).
      rewrite (@follow_frame s E0 (after (S n) (released p1 T1))
                 (after (S n) (released p2 T2)) E3 P eq_refl eq_refl M).
      rewrite W, Hh, Mp. cbn [Vector2.x Vector2.y].
      fold T1 T2.
      rewrite (@setTarget_same _ _ _ (target_after p1 T1 (S n))).
      rewrite (@setTarget_same _ _ _ (target_after p2 T2 (S n))).
      reflexivity. }
  cbv zeta in I. destruct I as (_ & _ & _ & _ & _ & P).
  exists E0, (after (S n) (released p1 T1)), (after (S n) (released p2 T2)),
    E3.
  split; [ exact P | ].
  split; [ apply target_after | ]. split; [ apply target_after | ].
  assert (D1 : distance (released p1 T1)
               = 3 / 10 * sqrt ((mx - w / 2) * (mx - w / 2)
                                + (my - h / 2) * (my - h / 2))).
  { rewrite distance_released. subst p1 T1.
    cbv [Vector2.length Vector2.subtract]; at_R; cbn [Vector2.x Vector2.y].
    rewrite <- sqrt_scaled by lra. f_equal. ring. }
  assert (D2 : distance (released p2 T2)
               = 3 / 10 * sqrt ((mx - w / 2) * (mx - w / 2)
                                + (my - h / 2) * (my - h / 2))).
  { rewrite distance_released. subst p2 T2.
    cbv [Vector2.length Vector2.subtract]; at_R; cbn [Vector2.x Vector2.y].
    rewrite <- sqrt_scaled by lra. f_equal. ring. }
  rewrite <- D1 at 1 2. rewrite <- D2.
  split; apply distance_after.
Qed.
